(** * Resource accounting core of the orchestrator (package [calcium]) and the
      systemd unit builder (package [systemd]): a shallow embedding and the
      properties established about it.

    Conventions of the embedding.

    - Go's [int64] is a [Z] with the two's-complement wrap-around written out
      ([int64_wrap]).  Go's [float64] is Rocq's primitive binary64 [float].
    - Go maps keyed by strings are [gmap string _]; reading a missing key
      yields the zero value ([get]).  Go iterates a map in an unspecified
      order; the embedding iterates [map_to_list], and no statement below
      depends on that order.
    - A Go function returning [(T, error)] returns a pair whose second
      component is [option error] ([None] is [nil]); a pointer result is an
      [option].
    - Calls that leave the package (store, engine, strategy, logger) act on an
      abstract backend state and are recorded, in order, in a trace.
    - The one map object that is both shared and mutated, [node.CPU], lives
      in a heap of map objects and is held by reference ([loc]).  The maps
      that are only read here ([InitCPU], a workload's [CPU], ...) are held by
      value: nodes and workloads are decoded from the store, so these are
      objects distinct from [node.CPU].  Maps are taken to be allocated
      (non-nil). *)

From Stdlib Require Import ZArith Floats Uint63 Lia.
From stdpp Require Import gmap strings list fin_maps.

Set Warnings "-inexact-float".

(* ===================================================================== *)
(** ** Machine integers, floats, errors                                   *)
(* ===================================================================== *)

Definition int64_wrap (z : Z) : Z := ((z + 2 ^ 63) `mod` 2 ^ 64 - 2 ^ 63)%Z.
Definition int64_add (a b : Z) : Z := int64_wrap (a + b).
Definition int64_sub (a b : Z) : Z := int64_wrap (a - b).
Definition is_int64 (z : Z) : Prop := (- 2 ^ 63 ≤ z < 2 ^ 63)%Z.

(** The conversion [float64(x)] of an [int64]: round to nearest, ties to
    even. *)
Definition float64_of_int64 (z : Z) : float :=
  let z := int64_wrap z in
  if (z =? - 2 ^ 63)%Z then (-9223372036854775808)%float
  else if (z <? 0)%Z then PrimFloat.opp (PrimFloat.of_uint63 (Uint63.of_Z (- z)))
  else PrimFloat.of_uint63 (Uint63.of_Z z).

(** [a != b] on [float64]. *)
Definition float_neb (a b : float) : bool := negb (PrimFloat.eqb a b).

(** Go's [error] values; [errors.WithStack] wraps an error and keeps [nil]. *)
Inductive error : Type :=
  | errorString (msg : string)
  | withStack (cause : error).

Definition errors_WithStack (e : option error) : option error := withStack <$> e.

(* ===================================================================== *)
(** ** State and trace                                                    *)
(* ===================================================================== *)

Definition M (St A : Type) : Type := St → A * St.
Definition ret {St A} (a : A) : M St A := λ s, (a, s).
Definition bind {St A B} (m : M St A) (k : A → M St B) : M St B :=
  λ s, let (a, s') := m s in k a s'.

Notation "'let*' x ':=' m 'in' k" := (bind m (λ x, k))
  (at level 10, x pattern, m at level 100, k at level 200).

(* ===================================================================== *)
(** ** Resource ledger types                                              *)
(* ===================================================================== *)

Abbreviation CPUMap := (gmap string Z).

(** [m[k]] on a Go map: the zero value when [k] is absent. *)
Definition get (m : gmap string Z) (k : string) : Z := default 0%Z (m !! k).

(** Modelled from the spec: [CPUMap.Add] (package [types], not part of the
    sources at hand) merges [q] into the receiver, summing core by core.  It
    is called as a statement ([cpumap.Add(workload.CPU)]), so it updates its
    receiver in place; here it yields the receiver's new contents. *)
Definition CPUMap_Add (c q : CPUMap) : CPUMap :=
  union_with (λ a b, Some (int64_add a b)) c q.

(** Modelled from the spec: [VolumeMap.Total()], the total bytes of a volume
    map. *)
Definition VolumeMap_Total (v : gmap string Z) : Z :=
  map_fold (λ _ x acc, int64_add acc x) 0%Z v.

Definition loc := positive.
Abbreviation Heap := (gmap loc CPUMap).

(** Contents of the map object at [l]. *)
Definition deref (h : Heap) (l : loc) : CPUMap := default ∅ (h !! l).

Module Node.
(** [types.Node].  [C] is what the [CPU] field holds: a reference for a node
    in memory, the contents for a node as the store persists it. *)
Record t {C : Type} := mk {
  Name : string;
  CPU : C;
  InitCPU : CPUMap;
  CPUUsed : float;
  MemCap : Z;
  InitMemCap : Z;
  StorageCap : Z;
  InitStorageCap : Z;
  VolumeUsed : Z;
  InitVolume : gmap string Z;
  NUMAMemory : gmap string Z;
  InitNUMAMemory : gmap string Z;
}.
Arguments t : clear implicits.
Arguments mk {C}.

Definition set_CPU {C D} (n : t C) (c : D) : t D :=
  mk (Name n) c (InitCPU n) (CPUUsed n) (MemCap n) (InitMemCap n) (StorageCap n)
     (InitStorageCap n) (VolumeUsed n) (InitVolume n) (NUMAMemory n) (InitNUMAMemory n).
Definition set_CPUUsed {C} (n : t C) (u : float) : t C :=
  mk (Name n) (CPU n) (InitCPU n) u (MemCap n) (InitMemCap n) (StorageCap n)
     (InitStorageCap n) (VolumeUsed n) (InitVolume n) (NUMAMemory n) (InitNUMAMemory n).
Definition set_MemCap {C} (n : t C) (m : Z) : t C :=
  mk (Name n) (CPU n) (InitCPU n) (CPUUsed n) m (InitMemCap n) (StorageCap n)
     (InitStorageCap n) (VolumeUsed n) (InitVolume n) (NUMAMemory n) (InitNUMAMemory n).
Definition set_StorageCap {C} (n : t C) (s : Z) : t C :=
  mk (Name n) (CPU n) (InitCPU n) (CPUUsed n) (MemCap n) (InitMemCap n) s
     (InitStorageCap n) (VolumeUsed n) (InitVolume n) (NUMAMemory n) (InitNUMAMemory n).
End Node.

(** A node in memory ([*types.Node]) and a node as persisted. *)
Abbreviation Node := (Node.t loc).
Abbreviation StoredNode := (Node.t CPUMap).

Module Workload.
(** [types.Workload], the fields this package reads. *)
Record t := mk {
  ID : string;
  CPUQuotaRequest : float;
  CPUQuotaLimit : float;
  MemoryRequest : Z;
  StorageRequest : Z;
  CPU : CPUMap;
  NUMANode : string;
}.
End Workload.

(** One entry of [NodeResource.Diffs].  The source renders each entry with
    [fmt.Sprintf]; a constructor stands for one format string and carries the
    values printed by it. *)
Inductive Diff : Type :=
  | DiffCPUUsed (used cpus : float)      (* "cpus used: %f diff: %f" *)
  | DiffCPU (core : string) (d : Z)      (* "cpu %s diff %d" *)
  | DiffMemory (cap d : Z)               (* "memory used: %d, diff %d" *)
  | DiffStorage (cap d : Z)              (* "storage used: %d, diff %d" *)
  | DiffValidate (e : error).            (* err.Error() of ResourceValidate *)

Module NodeResource.
(** [types.NodeResource].  [CPU] is a Go map, hence a reference. *)
Record t := mk {
  Name : string;
  CPU : loc;
  MemCap : Z;
  StorageCap : Z;
  Workloads : list Workload.t;
  Diffs : list Diff;
  CPUPercent : float;
  MemoryPercent : float;
  NUMAMemoryPercent : gmap string float;
  VolumePercent : float;
  StoragePercent : float;
}.
End NodeResource.

Module PodResource.
Record t := mk {
  Name : string;
  NodesResource : list (option NodeResource.t);   (* []*types.NodeResource *)
}.
End PodResource.

(** [enginetypes.VirtualizationResource], [VirtualizationRemapOptions] and
    [VirtualizationRemapMessage].  [CPUAvailable] is handed to the engine as
    the contents of [node.CPU] at the time of the call. *)
Module VirtualizationResource.
Record t := mk {
  CPU : CPUMap;
  Quota : float;
  NUMANode : string;
}.
End VirtualizationResource.

Module VirtualizationRemapOptions.
Record t := mk {
  CPUAvailable : CPUMap;
  CPUInit : CPUMap;
  CPUShareBase : Z;
  WorkloadResources : gmap string VirtualizationResource.t;
}.
End VirtualizationRemapOptions.

Module VirtualizationRemapMessage.
Record t := mk {
  ID : string;
  Error : option error;
}.
End VirtualizationRemapMessage.

(** [log.Fields]: the key/value pairs attached by [WithField]. *)
Definition Fields := list (string * string).

(** [c.config], the two settings read here. *)
Record Config := mkConfig {
  GlobalTimeout : Z;
  Scheduler_ShareBase : Z;
}.

(* ===================================================================== *)
(** ** Collaborators outside the package                                  *)
(* ===================================================================== *)

(** Every call that leaves the package, with its arguments. *)
Inductive Event : Type :=
  | EListPodNodes (podname : string)
  | ELockNode (nodename : string)
  | EUnlockNode (nodename : string)
  | EListNodeWorkloads (nodename : string)
  | EStoreListNodeWorkloads (nodename : string)
  | EGetNode (nodename : string)
  | EUpdateNodes (n : option StoredNode)
  | EResourceValidate (nodename : string) (cpus : float) (cpumap : CPUMap)
      (memory storage : Z)
  | EResourceRemap (nodename : string) (opts : VirtualizationRemapOptions.t)
  | ELoggerErr (fields : Fields) (e : option error)
  | ELogf (level format : string).

(** The store, the per-node engine and the node lock, as an interface over
    an abstract state [S].  A Go result [(T, error)] of a collaborator is a
    sum: its callers here read the value only when the error is [nil]. *)
Class Backend (S : Type) := {
  ListPodNodes : string → S → (error + list StoredNode) * S;
  LockNode : string → S → (error + StoredNode) * S;
  UnlockNode : string → S → S;
  ListNodeWorkloads : string → S → (error + list Workload.t) * S;
  store_ListNodeWorkloads : string → S → (error + list Workload.t) * S;
  GetNode : string → S → (error + StoredNode) * S;
  store_UpdateNodes : option StoredNode → S → option error * S;
  Engine_ResourceValidate :
    string → float → CPUMap → Z → Z → S → option error * S;
  Engine_VirtualizationResourceRemap :
    string → VirtualizationRemapOptions.t → S
    → (error + list VirtualizationRemapMessage.t) * S;
}.

Record World {S : Type} := mkWorld {
  heap : Heap;
  backend : S;
  trace : list Event;
}.
Arguments World : clear implicits.
Arguments mkWorld {S}.

Section Primitives.
Context {S : Type}.

(** A call to a collaborator: recorded, then performed. *)
Definition call {A} (ev : Event) (op : S → A * S) : M (World S) A :=
  λ w, let (a, s') := op (backend w) in
       (a, mkWorld (heap w) s' (trace w ++ [ev])).

Definition emit (ev : Event) : M (World S) unit :=
  λ w, (tt, mkWorld (heap w) (backend w) (trace w ++ [ev])).

(** A new map object with contents [m]. *)
Definition alloc (m : CPUMap) : M (World S) loc :=
  λ w, let l := fresh (dom (heap w)) in
       (l, mkWorld (<[l := m]> (heap w)) (backend w) (trace w)).

Definition load (l : loc) : M (World S) CPUMap :=
  λ w, (deref (heap w) l, w).

Definition store (l : loc) (m : CPUMap) : M (World S) unit :=
  λ w, (tt, mkWorld (<[l := m]> (heap w)) (backend w) (trace w)).

(** Modelled from the spec: [log.Fields.Err] (package [log]) logs the error
    with the fields and hands it back. *)
Definition logger_Err (logger : Fields) (e : option error)
  : M (World S) (option error) :=
  let* _ := emit (ELoggerErr logger e) in ret e.

(** A decoded node becomes a node in memory: its CPU map is a new object. *)
Definition decode_node (sn : StoredNode) : M (World S) Node :=
  let* l := alloc (Node.CPU sn) in ret (Node.set_CPU sn l).

(** What the store sees of a node in memory. *)
Definition encode_node (n : Node) : M (World S) StoredNode :=
  let* c := load (Node.CPU n) in ret (Node.set_CPU n c).
End Primitives.

(* ===================================================================== *)
(** ** Package [calcium]: reporter and drift corrector                    *)
(* ===================================================================== *)

(** The running totals of the loop over the workloads of a node. *)
Record Usage := mkUsage {
  cpus : float;
  memory : Z;
  storage : Z;
  cpumap : CPUMap;
}.

Section Calcium.
Context {S : Type} `{!Backend S}.
(** [utils.Round] is not part of the sources at hand; the spec says quotas
    are rounded to a fixed precision.  It is a parameter. *)
Variable Round : float → float.
Variable config : Config.

(** Modelled from the spec: [withNodeLocked] (not part of the sources at
    hand) runs [f] on the node while holding the node's lock: the lock is
    taken and the node read, [f] runs, the lock is released; the result is
    [f]'s error, or the error of taking the lock.  [l] is the state of the
    variables the Go closure captures. *)
Definition withNodeLocked {L} (nodename : string)
    (f : Node → L → M (World S) (L * option error)) (l : L)
  : M (World S) (L * option error) :=
  let* r := call (ELockNode nodename) (LockNode nodename) in
  match r with
  | inl err => ret (l, Some err)
  | inr sn =>
      let* node := decode_node sn in
      let* res := f node l in
      let* _ := call (EUnlockNode nodename) (λ s, (tt, UnlockNode nodename s)) in
      ret res
  end.

(** Modelled from the spec: [utils.Txn] (not part of the sources at hand)
    runs the compute step [cond], and the commit step [then_] only when
    [cond] returned no error; it returns the first error.  The rollback
    argument is [nil] at its one call site here and is left out; the time
    bound [ttl] has no counterpart in the model.  [l] is the state of the
    variables the two closures share. *)
Definition Txn {L} (cond then_ : L → M (World S) (L * option error)) (ttl : Z)
    (l : L) : M (World S) (option error) :=
  let* (l1, condErr) := cond l in
  match condErr with
  | Some err => ret (Some err)
  | None => let* (_, thenErr) := then_ l1 in ret thenErr
  end.

(** The body of [for i, v := range node.CPU { n.CPU[i] += node.InitCPU[i] - v }]
    run over the entries of [node.CPU], on the contents of [n.CPU]. *)
Definition fix_core (InitCPU : CPUMap) (nCPU : CPUMap) (iv : string * Z) : CPUMap :=
  <[iv.1 := int64_add (get nCPU iv.1) (int64_sub (get InitCPU iv.1) iv.2)]> nCPU.

(** The compute step of [doFixDiffResource]: the first closure passed to
    [utils.Txn].  [n] is the captured variable [var n *types.Node]. *)
Definition doFixDiffResource_cond (node : Node) (cpus : float) (memory storage : Z)
    (n : option Node) : M (World S) (option Node * option error) :=
  let* r := call (EGetNode (Node.Name node)) (GetNode (Node.Name node)) in
  match r with
  | inl err => ret (None, Some err)
  | inr sn =>
      let* n := decode_node sn in
      let n := Node.set_CPUUsed n cpus in
      let* nodeCPU := load (Node.CPU node) in
      let* nCPU := load (Node.CPU n) in
      let* _ := store (Node.CPU n)
                  (foldl (fix_core (Node.InitCPU node)) nCPU (map_to_list nodeCPU)) in
      let n := Node.set_MemCap n
                 (int64_add (Node.MemCap n)
                    (int64_sub (Node.InitMemCap node)
                       (int64_add memory (Node.MemCap node)))) in
      let n := Node.set_StorageCap n
                 (int64_add (Node.StorageCap n)
                    (int64_sub (Node.InitStorageCap node)
                       (int64_add storage (Node.StorageCap node)))) in
      ret (Some n, None)
  end.

(** The commit step: the second closure, [c.store.UpdateNodes(ctx, n)]. *)
Definition doFixDiffResource_then (n : option Node)
  : M (World S) (option Node * option error) :=
  let* sn := match n with
             | Some n => let* sn := encode_node n in ret (Some sn)
             | None => ret None
             end in
  let* err := call (EUpdateNodes sn) (store_UpdateNodes sn) in
  ret (n, errors_WithStack err).

Definition doFixDiffResource (node : Node) (cpus : float) (memory storage : Z)
  : M (World S) (option error) :=
  Txn (doFixDiffResource_cond node cpus memory storage)
      doFixDiffResource_then
      (GlobalTimeout config)
      None.

(** One turn of [for _, workload := range workloads]. *)
Definition accumulate (u : Usage) (workload : Workload.t) : Usage :=
  mkUsage (Round (cpus u + Workload.CPUQuotaRequest workload)%float)
          (int64_add (memory u) (Workload.MemoryRequest workload))
          (int64_add (storage u) (Workload.StorageRequest workload))
          (CPUMap_Add (cpumap u) (Workload.CPU workload)).

Definition aggregate (workloads : list Workload.t) : Usage :=
  foldl accumulate (mkUsage 0%float 0%Z 0%Z ∅) workloads.

(** The entries appended to [nr.Diffs] by each check, in the order of the
    source.  [cpu_diffs] is
    [for i, v := range node.CPU { if node.InitCPU[i] != v { ... } }], over the
    contents [merged] of [node.CPU] after the merge. *)
Definition cpu_diffs (InitCPU merged : CPUMap) : list Diff :=
  omap (λ iv : string * Z,
          if bool_decide (get InitCPU iv.1 ≠ iv.2)
          then Some (DiffCPU iv.1 (int64_sub (get InitCPU iv.1) iv.2))
          else None)
       (map_to_list merged).

Definition cpuused_diffs (node : Node) (cpus : float) : list Diff :=
  if float_neb cpus (Node.CPUUsed node)
  then [DiffCPUUsed (Node.CPUUsed node) cpus]
  else [].

Definition memory_diffs (node : Node) (memory : Z) : list Diff :=
  if bool_decide (int64_add memory (Node.MemCap node) ≠ Node.InitMemCap node)
  then [DiffMemory (Node.MemCap node)
          (int64_sub (Node.InitMemCap node) (int64_add memory (Node.MemCap node)))]
  else [].

Definition storage_diffs (node : Node) (storage : Z) : list Diff :=
  if bool_decide (Node.InitStorageCap node ≠ 0%Z)
  then if bool_decide (int64_add storage (Node.StorageCap node) ≠ Node.InitStorageCap node)
       then [DiffStorage (Node.StorageCap node)
               (int64_sub (Node.InitStorageCap node)
                  (int64_add storage (Node.StorageCap node)))]
       else []
  else [].

Definition validate_diffs (verr : option error) : list Diff :=
  match verr with
  | Some err => [DiffValidate err]
  | None => []
  end.

Definition storage_percent (node : Node) (storage : Z) : float :=
  if bool_decide (Node.InitStorageCap node ≠ 0%Z)
  then (float64_of_int64 storage / float64_of_int64 (Node.InitStorageCap node))%float
  else 0%float.

Definition numa_percent (node : Node) : gmap string float :=
  map_imap (λ nodeID nmemory,
              (λ initMemory, (float64_of_int64 nmemory / float64_of_int64 initMemory)%float)
                <$> Node.InitNUMAMemory node !! nodeID)
           (Node.NUMAMemory node).

(** The closure run under the node lock by [doGetNodeResource].  [nr] is
    the captured variable [var nr *types.NodeResource]. *)
Definition doGetNodeResource_func (fix_ : bool) (node : Node)
    (nr : option NodeResource.t)
  : M (World S) (option NodeResource.t * option error) :=
  let* r := call (EListNodeWorkloads (Node.Name node))
                 (ListNodeWorkloads (Node.Name node)) in
  match r with
  | inl err => ret (nr, Some err)
  | inr workloads =>
      let u := aggregate workloads in
      let diffs := [] in
      let diffs := diffs ++ cpuused_diffs node (cpus u) in
      (* node.CPU.Add(cpumap) *)
      let* c := load (Node.CPU node) in
      let* _ := store (Node.CPU node) (CPUMap_Add c (cpumap u)) in
      let* merged := load (Node.CPU node) in
      let diffs := diffs ++ cpu_diffs (Node.InitCPU node) merged in
      let diffs := diffs ++ memory_diffs node (memory u) in
      let diffs := diffs ++ storage_diffs node (storage u) in
      let* verr := call (EResourceValidate (Node.Name node) (cpus u) (cpumap u)
                           (memory u) (storage u))
                        (Engine_ResourceValidate (Node.Name node) (cpus u) (cpumap u)
                           (memory u) (storage u)) in
      let diffs := diffs ++ validate_diffs verr in
      let* _ := if fix_
                then let* ferr := doFixDiffResource node (cpus u) (memory u) (storage u) in
                     match ferr with
                     | Some _ => emit (ELogf "warn" "[doGetNodeResource] fix node resource failed %v")
                     | None => ret tt
                     end
                else ret tt in
      ret (Some (NodeResource.mk
                   (Node.Name node) (Node.CPU node) (Node.MemCap node)
                   (Node.StorageCap node) workloads diffs
                   (cpus u / float64_of_int64 (Z.of_nat (size (Node.InitCPU node))))%float
                   (float64_of_int64 (memory u) / float64_of_int64 (Node.InitMemCap node))%float
                   (numa_percent node)
                   (float64_of_int64 (Node.VolumeUsed node)
                    / float64_of_int64 (VolumeMap_Total (Node.InitVolume node)))%float
                   (storage_percent node (storage u))),
           None)
  end.

(** [return nr, c.withNodeLocked(...)]: the compiled program reads [nr]
    after the call, so the caller gets the report built by the closure. *)
Definition doGetNodeResource (nodename : string) (fix_ : bool)
  : M (World S) (option NodeResource.t * option error) :=
  withNodeLocked nodename (doGetNodeResource_func fix_) None.

(** The loop of [PodResource] over the nodes of the pod. *)
Fixpoint PodResource_loop (logger : Fields) (nodes : list StoredNode)
    (r : PodResource.t) : M (World S) (option PodResource.t * option error) :=
  match nodes with
  | [] => ret (Some r, None)
  | node :: rest =>
      let* (nodeResource, err) := doGetNodeResource (Node.Name node) false in
      match err with
      | Some _ => let* e := logger_Err logger err in ret (None, e)
      | None =>
          PodResource_loop logger rest
            (PodResource.mk (PodResource.Name r)
               (PodResource.NodesResource r ++ [nodeResource]))
      end
  end.

Definition PodResource (podname : string)
  : M (World S) (option PodResource.t * option error) :=
  let logger := [("Calcium", "PodResource"); ("podname", podname)] in
  let* r := call (EListPodNodes podname) (ListPodNodes podname) in
  match r with
  | inl err => let* e := logger_Err logger (Some err) in ret (None, e)
  | inr nodes => PodResource_loop logger nodes (PodResource.mk podname [])
  end.
(* ------------------------------------------------------------------- *)
(** *** Resource remapper                                               *)

(** The [remapOpts] built by [remapResource]: the node's available and
    initial CPU maps, the share base, and one entry per workload, filled in
    the order of the list (a later workload with the same ID overwrites an
    earlier one). *)
Definition remapOptions (node : Node) (available : CPUMap)
    (workloads : list Workload.t) : VirtualizationRemapOptions.t :=
  VirtualizationRemapOptions.mk
    available
    (Node.InitCPU node)
    (int64_wrap (Scheduler_ShareBase config))
    (foldl (λ m workload,
              <[Workload.ID workload :=
                  VirtualizationResource.mk (Workload.CPU workload)
                    (Workload.CPUQuotaLimit workload)
                    (Workload.NUMANode workload)]> m)
           ∅ workloads).

(** [remapResource]: the channel handed back by the engine is the list of
    the messages it delivers before it closes the channel; [None] is the
    [nil] channel. *)
Definition remapResource (node : Node)
  : M (World S) (option (list VirtualizationRemapMessage.t) * option error) :=
  let* r := call (EStoreListNodeWorkloads (Node.Name node))
                 (store_ListNodeWorkloads (Node.Name node)) in
  match r with
  | inl err => ret (None, Some err)
  | inr workloads =>
      let* available := load (Node.CPU node) in
      let remapOpts := remapOptions node available workloads in
      let* r := call (EResourceRemap (Node.Name node) remapOpts)
                     (Engine_VirtualizationResourceRemap (Node.Name node) remapOpts) in
      match r with
      | inl err => ret (None, errors_WithStack (Some err))
      | inr ch => ret (Some ch, errors_WithStack None)
      end
  end.

(** The trace entry left by one turn of the loop below. *)
Definition message_logged (logger : Fields) (msg : VirtualizationRemapMessage.t) : Event :=
  ELoggerErr (logger ++ [("id", VirtualizationRemapMessage.ID msg)])
             (VirtualizationRemapMessage.Error msg).

(** [for msg := range ch { logger.WithField("id", msg.ID).Err(msg.Error) }]:
    the result of [Err] is dropped. *)
Fixpoint drain (logger : Fields) (ch : list VirtualizationRemapMessage.t)
  : M (World S) unit :=
  match ch with
  | [] => ret tt
  | msg :: rest =>
      let* _ := logger_Err (logger ++ [("id", VirtualizationRemapMessage.ID msg)])
                           (VirtualizationRemapMessage.Error msg) in
      drain logger rest
  end.

(** [doRemapResourceAndLog] has no result.  The fresh context and its time
    bound have no counterpart in the model.  A [nil] channel together with a
    [nil] error does not arise ([remapResource] hands back a channel
    whenever its error is [nil]); the model drains nothing there. *)
Definition doRemapResourceAndLog (logger : Fields) (node : Node)
  : M (World S) unit :=
  let* _ := emit (ELogf "debug" "[doRemapResourceAndLog] remap node %s") in
  let logger := logger ++ [("Calcium", "doRemapResourceAndLog");
                           ("nodename", Node.Name node)] in
  let* (ch, err) := remapResource node in
  let* e := logger_Err logger err in
  match e with
  | None => drain logger (default [] ch)
  | Some _ => ret tt
  end.

(** The per-node operation run on each node of a list in turn, every run
    without error, each starting in the state the previous one left. *)
Inductive reports_in_order
  : list StoredNode → list (option NodeResource.t) → World S → World S → Prop :=
  | reports_nil w : reports_in_order [] [] w w
  | reports_cons node nodes nr nrs w w1 w2 :
      doGetNodeResource (Node.Name node) false w = ((nr, None), w1) →
      reports_in_order nodes nrs w1 w2 →
      reports_in_order (node :: nodes) (nr :: nrs) w w2.
End Calcium.

(* ===================================================================== *)
(** ** Package [calcium]: allocation planner                              *)
(* ===================================================================== *)

Section Planner.
Context {S : Type}.
(** The types the planner passes through without looking inside. *)
Variables NodeMap DeployOptions StrategyInfos ResourcePlans : Type.

Inductive AllocEvent : Type :=
  | ECalculateCapacity (nodeMap : NodeMap) (opts : DeployOptions)
  | EMakeDeployStatus (opts : DeployOptions) (strategyInfos : StrategyInfos)
  | EStrategyDeploy (opts : DeployOptions) (strategyInfos : StrategyInfos) (total : Z)
  | EAllocLogf (level format : string).

(** [c.doCalculateCapacity], [c.store.MakeDeployStatus] and
    [strategy.Deploy] are not part of the sources at hand: they are
    parameters acting on the backend state. *)
Variable doCalculateCapacity :
  NodeMap → DeployOptions → S
  → (error + (Z * list ResourcePlans * StrategyInfos)) * S.
Variable store_MakeDeployStatus :
  DeployOptions → StrategyInfos → S → option error * S.
Variable strategy_Deploy :
  DeployOptions → StrategyInfos → Z → S → (error + gmap string Z) * S.

Definition acall {A} (ev : AllocEvent) (op : S → A * S)
  : M (S * list AllocEvent) A :=
  λ '(s, tr), let (a, s') := op s in (a, (s', tr ++ [ev])).

Definition doAllocResource (nodeMap : NodeMap) (opts : DeployOptions)
  : M (S * list AllocEvent)
      (option (list ResourcePlans) * option (gmap string Z) * option error) :=
  let* r := acall (ECalculateCapacity nodeMap opts)
                  (doCalculateCapacity nodeMap opts) in
  match r with
  | inl err => ret (None, None, Some err)
  | inr (total, plans, strategyInfos) =>
      let* err := acall (EMakeDeployStatus opts strategyInfos)
                        (store_MakeDeployStatus opts strategyInfos) in
      match err with
      | Some err => ret (None, None, errors_WithStack (Some err))
      | None =>
          let* r := acall (EStrategyDeploy opts strategyInfos total)
                          (strategy_Deploy opts strategyInfos total) in
          match r with
          | inl err => ret (None, None, Some err)
          | inr deployMap =>
              let* _ := acall (EAllocLogf "info" "[Calium.doAllocResource] deployMap: %+v")
                              (λ s, (tt, s)) in
              ret (Some plans, Some deployMap, None)
          end
      end
  end.
End Planner.

Arguments ECalculateCapacity {NodeMap DeployOptions StrategyInfos}.
Arguments EMakeDeployStatus {NodeMap DeployOptions StrategyInfos}.
Arguments EStrategyDeploy {NodeMap DeployOptions StrategyInfos}.
Arguments EAllocLogf {NodeMap DeployOptions StrategyInfos}.
Arguments doAllocResource {S NodeMap DeployOptions StrategyInfos ResourcePlans}.

(* ===================================================================== *)
(** ** Package [systemd]: the unit builder                                *)
(* ===================================================================== *)

Module Systemd.

(** [enginetypes.VirtualizationCreateOptions], the fields the builder reads. *)
Record VirtualizationCreateOptions := mkOpts {
  Name : string;
  Labels : gmap string string;
  CPU : gmap string Z;
  Quota : float;
  NUMANode : string;
  SoftLimit : bool;
  Memory : Z;
  Env : list string;
  LogType : string;
  RestartPolicy : string;
  Cmd : list string;
}.

(** [unitBuilder].  The methods update the builder in place and hand the
    same builder back; here each one maps the builder to its new state. *)
Record unitBuilder := mkBuilder {
  ID : string;
  opts : VirtualizationCreateOptions;
  unitBuffer : list string;
  serviceBuffer : list string;
  err : option error;
}.

Definition nl : string := String (Ascii.ascii_of_nat 10) EmptyString.
Definition tab : string := String (Ascii.ascii_of_nat 9) EmptyString.
Definition dquote : string := String (Ascii.ascii_of_nat 34) EmptyString.

(** [fmt.Sprintf(unitTemplate, unit, service)]. *)
Definition unitTemplate (unit service : string) : string :=
  nl +:+ "[Unit]" +:+ nl +:+ unit +:+ nl +:+ nl +:+ "[Service]" +:+ nl +:+ service
     +:+ nl +:+ tab.

(** [units.MiB] of [github.com/docker/go-units]. *)
Definition units_MiB : Z := 1048576.

Section Builder.
(** Library functions the builder calls: [json.Marshal] of a
    [unitDesciption] with the given name and labels, and the renderings of
    the verbs [%d] and [%.2f]. *)
Variable json_Marshal : string → gmap string string → error + string.
Variable Sprintf_d : Z → string.
Variable Sprintf_2f : float → string.

Definition newUnitBuilder (ID : string) (opts : VirtualizationCreateOptions)
  : unitBuilder :=
  mkBuilder ID opts [] [] None.

Definition cgroupPath (b : unitBuilder) : string := ID b.

Definition set_err (b : unitBuilder) (e : error) : unitBuilder :=
  mkBuilder (ID b) (opts b) (unitBuffer b) (serviceBuffer b) (Some e).
Definition append_unit (b : unitBuilder) (ls : list string) : unitBuilder :=
  mkBuilder (ID b) (opts b) (unitBuffer b ++ ls) (serviceBuffer b) (err b).
Definition append_service (b : unitBuilder) (ls : list string) : unitBuilder :=
  mkBuilder (ID b) (opts b) (unitBuffer b) (serviceBuffer b ++ ls) (err b).

Definition buildUnit (b : unitBuilder) : unitBuilder :=
  match err b with
  | Some _ => b
  | None =>
      match json_Marshal (Name (opts b)) (Labels (opts b)) with
      | inl e => set_err b e
      | inr description =>
          append_unit b
            [ "Description=" +:+ description;
              "After=network-online.target firewalld.service";
              "Wants=network-online.target" ]
      end
  end.

Definition buildCPULimit (b : unitBuilder) : unitBuilder :=
  match err b with
  | Some _ => b
  | None =>
      let b :=
        if bool_decide (0 < size (CPU (opts b)))%nat
        then
          let allowedCPUs := (map_to_list (CPU (opts b))).*1 in
          append_service b
            [ "ExecStartPre=/usr/bin/cgset -r cpuset.cpus="
                +:+ String.concat "," allowedCPUs +:+ " " +:+ cgroupPath b ]
        else b in
      let b :=
        if PrimFloat.ltb 0%float (Quota (opts b))
        then append_service b
               [ "CPUQuota=" +:+ Sprintf_2f (Quota (opts b) * 100)%float +:+ "%" ]
        else b in
      let numaNode := NUMANode (opts b) in
      let numaNode := if decide (numaNode = "") then "0" else numaNode in
      append_service b
        [ "ExecStartPre=/usr/bin/cgset -r cpuset.mems=" +:+ numaNode +:+ " "
            +:+ cgroupPath b ]
  end.

Definition buildMemoryLimit (b : unitBuilder) : unitBuilder :=
  match err b with
  | Some _ => b
  | None =>
      if SoftLimit (opts b)
      then append_service b
             [ "ExecStartPre=/usr/bin/cgset -r memory.soft_limit_in_bytes="
                 +:+ Sprintf_d (Memory (opts b)) +:+ " " +:+ cgroupPath b ]
      else append_service b
             [ "ExecStartPre=/usr/bin/cgset -r memory.limit_in_bytes="
                 +:+ Sprintf_d (Memory (opts b)) +:+ " " +:+ cgroupPath b;
               "ExecStartPre=/usr/bin/cgset -r memory.soft_limit_in_bytes="
                 +:+ Sprintf_d (Z.max (Z.quot (Memory (opts b)) 2) (units_MiB * 4))
                 +:+ " " +:+ cgroupPath b ]
  end.

Definition buildPreExec (b : unitBuilder) : unitBuilder :=
  match err b with
  | Some _ => b
  | None =>
      let b := append_service b
                 [ "ExecStartPre=/usr/bin/cgcreate -g memory,cpuset:" +:+ cgroupPath b ] in
      buildMemoryLimit (buildCPULimit b)
  end.

Definition convertToSystemdRestartPolicy (restart : string) : string * option error :=
  if decide (restart = "no") then ("no", None)
  else if decide (restart = "always" ∨ restart = "") then ("always", None)
  else if String.prefix "on-failure" restart then ("on-failure", None)
  else ("", Some (errorString ("restart policy not supported: " +:+ restart))).

Definition convertToSystemdStdio (logType : string) : string * option error :=
  if decide (logType = "journald" ∨ logType = "") then ("journal", None)
  else if decide (logType = "none") then ("null", None)
  else ("", Some (errorString ("log type not supported: " +:+ logType))).

Definition buildExec (b : unitBuilder) : unitBuilder :=
  match err b with
  | Some _ => b
  | None =>
      let env := (λ e, dquote +:+ e +:+ dquote) <$> Env (opts b) in
      match convertToSystemdStdio (LogType (opts b)) with
      | (_, Some e) => set_err b e
      | (stdioType, None) =>
          match convertToSystemdRestartPolicy (RestartPolicy (opts b)) with
          | (_, Some e) => set_err b e
          | (restartPolicy, None) =>
              append_service b
                [ "ExecStart=/usr/bin/cgexec -g memory,cpuset:" +:+ cgroupPath b +:+ " "
                    +:+ String.concat " " (Cmd (opts b));
                  "Environment=" +:+ String.concat " " env;
                  "StandardOutput=" +:+ stdioType;
                  "StandardError=" +:+ stdioType;
                  "Restart=" +:+ restartPolicy ]
          end
      end
  end.

Definition buildPostExec (b : unitBuilder) : unitBuilder :=
  match err b with
  | Some _ => b
  | None =>
      append_service b
        [ "ExecStopPost=/usr/bin/cgdelete -g cpuset,memory:" +:+ cgroupPath b ]
  end.

(** [buffer]: the rendered unit and the recorded error.  (The debug log line
    printed on the way does not touch the builder.) *)
Definition buffer (b : unitBuilder) : string * option error :=
  (unitTemplate (String.concat nl (unitBuffer b)) (String.concat nl (serviceBuffer b)),
   err b).

(** The six build steps. *)
Inductive step : Type :=
  | StepUnit | StepPreExec | StepCPULimit | StepMemoryLimit | StepExec | StepPostExec.

Definition run_step (s : step) : unitBuilder → unitBuilder :=
  match s with
  | StepUnit => buildUnit
  | StepPreExec => buildPreExec
  | StepCPULimit => buildCPULimit
  | StepMemoryLimit => buildMemoryLimit
  | StepExec => buildExec
  | StepPostExec => buildPostExec
  end.

(** A chain [b.s1().s2()...]. *)
Definition run_steps (ss : list step) (b : unitBuilder) : unitBuilder :=
  foldl (λ b s, run_step s b) b ss.
End Builder.

End Systemd.

(* ===================================================================== *)
(** ** The claims' wording, and concrete collaborators for examples       *)
(* ===================================================================== *)

(** The CPU figure as the specification words it: the sum over the workloads
    of the rounded requests, each request rounded before it is added. *)
Definition spec_cpus (Round : float → float) (workloads : list Workload.t) : float :=
  foldl (λ acc w, (acc + Round (Workload.CPUQuotaRequest w))%float) 0%float workloads.

(** The 64-bit total of core [i]: what the node has left plus what the
    workloads hold. *)
Definition core_total (nodeCPU : CPUMap) (workloads : list Workload.t) (i : string) : Z :=
  int64_wrap (get nodeCPU i + foldr Z.add 0%Z ((λ w, get (Workload.CPU w) i) <$> workloads)).

(** [i] is a core of the map merged by the drift check: a core of [node.CPU]
    or of some workload. *)
Definition core_known (nodeCPU : CPUMap) (workloads : list Workload.t) (i : string) : Prop :=
  i ∈ dom nodeCPU ∨ Exists (λ w, i ∈ dom (Workload.CPU w)) workloads.

Definition int64_map (m : gmap string Z) : Prop := map_Forall (λ _ v, is_int64 v) m.

(** [math.Round]: to the nearest integer, halves away from zero. *)
Definition math_Round (x : float) : float :=
  let a := PrimFloat.abs x in
  if PrimFloat.ltb a 4503599627370496%float then
    let r := (a + 4503599627370496 - 4503599627370496)%float in
    let fl := if PrimFloat.ltb a r then (r - 1)%float else r in
    let res := if PrimFloat.leb 0.5%float (a - fl)%float then (fl + 1)%float else fl in
    if PrimFloat.ltb x 0%float then (- res)%float else res
  else x.

(** Modelled from the spec: [utils.Round] rounds a quota to a fixed decimal
    precision; [scale] is the inverse of that precision (100 for two
    decimals). *)
Definition utils_Round (scale : float) (f : float) : float :=
  (math_Round (f * scale) / scale)%float.

(** A store and engine kept in memory, as a test double would. *)
Module Mock.
Record t := mk {
  nodes : gmap string StoredNode;
  pods : gmap string (list string);
  workloads : gmap string (list Workload.t);
  getNodeErr : option error;
  validateErr : option error;
  remapResult : error + list VirtualizationRemapMessage.t;
}.

Definition find_node (name : string) (s : t) : error + StoredNode :=
  match nodes s !! name with
  | Some n => inr n
  | None => inl (errorString "node not found")
  end.

Definition list_workloads (name : string) (s : t) : error + list Workload.t :=
  match nodes s !! name with
  | Some _ => inr (default [] (workloads s !! name))
  | None => inl (errorString "node not found")
  end.

Definition update (n : option StoredNode) (s : t) : option error * t :=
  match n with
  | Some n => (None, mk (<[Node.Name n := n]> (nodes s)) (pods s) (workloads s)
                        (getNodeErr s) (validateErr s) (remapResult s))
  | None => (Some (errorString "nil node"), s)
  end.

#[global] Instance backend : Backend t := {|
  ListPodNodes pod s :=
    (match pods s !! pod with
     | Some names => inr (omap (λ n, nodes s !! n) names)
     | None => inl (errorString "pod not found")
     end, s);
  LockNode name s := (find_node name s, s);
  UnlockNode name s := s;
  ListNodeWorkloads name s := (list_workloads name s, s);
  store_ListNodeWorkloads name s := (list_workloads name s, s);
  GetNode name s :=
    (match getNodeErr s with Some e => inl e | None => find_node name s end, s);
  store_UpdateNodes := update;
  Engine_ResourceValidate name cpus cpumap memory storage s := (validateErr s, s);
  Engine_VirtualizationResourceRemap name opts s := (remapResult s, s);
|}.

Definition world (s : t) : World t := mkWorld ∅ s [].
End Mock.

Definition example_config : Config := mkConfig 0 100.

Definition example_workload (id : string) (quota : float) (mem sto : Z) (cpu : CPUMap)
  : Workload.t :=
  Workload.mk id quota quota mem sto cpu "".

Definition example_node (cpu initcpu : CPUMap) (used : float)
    (memcap initmem stocap initsto : Z) : StoredNode :=
  Node.mk "n1" cpu initcpu used memcap initmem stocap initsto 0 ∅ ∅ ∅.

Definition example_store (n : StoredNode) (ws : list Workload.t) : Mock.t :=
  Mock.mk {[ "n1" := n ]} {[ "p1" := ["n1"] ]} {[ "n1" := ws ]} None None (inr []).

(** A node with one core, nothing recorded as used, and two workloads that
    request 0.1 and 0.2 CPUs; the first holds 50 shares of core 0. *)
Definition busy_workloads : list Workload.t :=
  [ example_workload "w1" 0.1 10 7 {[ "0" := 50%Z ]};
    example_workload "w2" 0.2 10 0 ∅ ].
Definition busy_node : StoredNode :=
  example_node {[ "0" := 100%Z ]} {[ "0" := 100%Z ]} 0 1000 1000 5 0.
Definition busy_store : Mock.t := example_store busy_node busy_workloads.

(** The same node once the lock holder has it in memory. *)
Definition busy_world : World Mock.t := (decode_node busy_node (Mock.world busy_store)).2.
Definition busy_node_in_memory : Node := (decode_node busy_node (Mock.world busy_store)).1.

(** An idle node whose [CPU] map lacks core 1 of its [InitCPU]. *)
Definition short_node : StoredNode :=
  example_node {[ "0" := 100%Z ]} {[ "0" := 100%Z; "1" := 100%Z ]} 0 1000 1000 0 0.
Definition short_store : Mock.t := example_store short_node [].

(** The scenario of the specification: two idle cores of 100 shares, one
    workload that requests 1.5 CPUs and holds 50 and 100 shares, and a node
    that records 1.0 CPUs as used. *)
Definition scenario_node : StoredNode :=
  example_node {[ "0" := 100%Z; "1" := 100%Z ]} {[ "0" := 100%Z; "1" := 100%Z ]}
    1 1000 1000 0 0.
Definition scenario_store : Mock.t :=
  example_store scenario_node
    [ example_workload "w1" 1.5 0 0 {[ "0" := 50%Z; "1" := 100%Z ]} ].

(** A store whose [GetNode] fails. *)
Definition failing_store : Mock.t :=
  Mock.mk {[ "n1" := busy_node ]} {[ "p1" := ["n1"] ]} {[ "n1" := busy_workloads ]}
          (Some (errorString "etcd: request timed out")) None (inr []).
Definition failing_world : World Mock.t :=
  (decode_node busy_node (Mock.world failing_store)).2.

(** An engine whose remap stream carries three messages, the second one with
    an error. *)
Definition remap_messages : list VirtualizationRemapMessage.t :=
  [ VirtualizationRemapMessage.mk "w1" None;
    VirtualizationRemapMessage.mk "w2" (Some (errorString "cgroup busy"));
    VirtualizationRemapMessage.mk "w3" None ].
Definition remap_store : Mock.t :=
  Mock.mk {[ "n1" := busy_node ]} {[ "p1" := ["n1"] ]} {[ "n1" := busy_workloads ]}
          None None (inr remap_messages).
Definition remap_world : World Mock.t :=
  (decode_node busy_node (Mock.world remap_store)).2.

(** Collaborators of the planner: the capacity calculation succeeds and the
    staging of the deploy status fails. *)
Definition example_capacity (nodeMap opts : string) (s : unit)
  : (error + (Z * list string * string)) * unit :=
  (inr (3%Z, ["plan"], "infos"), s).
Definition failing_MakeDeployStatus (opts infos : string) (s : unit)
  : option error * unit :=
  (Some (errorString "etcd: request timed out"), s).
Definition example_Deploy (opts infos : string) (total : Z) (s : unit)
  : (error + gmap string Z) * unit :=
  (inr {[ "n1" := total ]}, s).

(** Stand-ins for the library renderings, and a builder on which [buildExec]
    has recorded an error: the log type "syslog" is not supported. *)
Definition example_json (name : string) (labels : gmap string string) : error + string :=
  inr name.
Definition example_d (z : Z) : string := "0".
Definition example_2f (f : float) : string := "0.00".
Definition failed_builder : Systemd.unitBuilder :=
  Systemd.run_steps example_json example_d example_2f
    [Systemd.StepUnit; Systemd.StepPreExec; Systemd.StepExec]
    (Systemd.newUnitBuilder "c1"
       (Systemd.mkOpts "app" ∅ {[ "0" := 100%Z ]} 1.5 "" false 104857600 ["A=1"]
          "syslog" "always" ["sleep"; "1"])).

(* ===================================================================== *)
(** ** Package [calcium]: the node report as callers get it               *)
(* ===================================================================== *)

(** The entry [NodeResource] appends to [nr.Diffs] for a workload whose probe
    failed.  [Diff] has no constructor for it, so these entries are kept in a
    list of their own: the [Diffs] of the report handed back are those of the
    per-node operation followed by this list. *)
Inductive InspectDiff : Type :=
  | DiffInspect (id : string) (e : error).   (* "workload %s inspect failed %v \n" *)

Section NodeReport.
Context {S : Type} `{!Backend S}.
Variable Round : float → float.
Variable config : Config.
(** [types.ErrEmptyNodeName] and [workload.Inspect] are not part of the
    sources at hand: the first is a parameter, the second a parameter acting
    on the backend state (its first result is dropped by the caller). *)
Variable ErrEmptyNodeName : error.
Variable workload_Inspect : Workload.t → S → option error * S.

(** [workload.Inspect(ctx)].  The trace has no entry for this call. *)
Definition inspect (workload : Workload.t) : M (World S) (option error) :=
  λ w, let (e, s') := workload_Inspect workload (backend w) in
       (e, mkWorld (heap w) s' (trace w)).

(** [for _, workload := range nr.Workloads { if _, err := workload.Inspect(ctx);
    err != nil { nr.Diffs = append(...); continue } }]. *)
Fixpoint NodeResource_probe (workloads : list Workload.t) (diffs : list InspectDiff)
  : M (World S) (list InspectDiff) :=
  match workloads with
  | [] => ret diffs
  | workload :: rest =>
      let* e := inspect workload in
      match e with
      | Some err =>
          NodeResource_probe rest (diffs ++ [DiffInspect (Workload.ID workload) err])
      | None => NodeResource_probe rest diffs
      end
  end.

(** [NodeResource].  The per-node operation hands back a report whenever its
    error is [nil]; the model probes no workload for a [nil] report. *)
Definition NodeResource (nodename : string) (fix_ : bool)
  : M (World S) (option NodeResource.t * list InspectDiff * option error) :=
  let logger := [("Calcium", "NodeResource"); ("nodename", nodename);
                 ("fix", if fix_ then "true" else "false")] in
  if decide (nodename = "")
  then let* e := logger_Err logger (Some ErrEmptyNodeName) in ret (None, [], e)
  else
    let* (nr, err) := doGetNodeResource Round config nodename fix_ in
    match err with
    | Some _ => let* e := logger_Err logger err in ret (None, [], e)
    | None =>
        let* diffs := NodeResource_probe
                        (match nr with
                         | Some r => NodeResource.Workloads r
                         | None => []
                         end) [] in
        let* e := logger_Err logger err in
        ret (nr, diffs, e)
    end.
End NodeReport.

(** The calls made by the drift corrector. *)
Definition corrector_event (ev : Event) : Prop :=
  match ev with
  | EGetNode _ | EUpdateNodes _ => True
  | _ => False
  end.

(* ===================================================================== *)
(** ** Package [utils]: capacity map                                      *)
(* ===================================================================== *)

Module ScheduleInfo.
(** [resourcetypes.ScheduleInfo], the two fields read here. *)
Record t := mk {
  Name : string;
  Capacity : Z;
}.
End ScheduleInfo.

Definition GetCapacity (scheduleInfos : list ScheduleInfo.t) : gmap string Z :=
  foldl (λ capacity scheduleInfo,
           <[ScheduleInfo.Name scheduleInfo := ScheduleInfo.Capacity scheduleInfo]> capacity)
        ∅ scheduleInfos.

(* ===================================================================== *)
(** ** Package [calcium]: networks                                        *)
(* ===================================================================== *)

Section Networks.
Context {S : Type}.
(** [enginetypes.Network]. *)
Variable Network : Type.

Inductive NetEvent : Type :=
  | NListPodNodes (podname : string)
  | NNetworkList (nodename : string) (drivers : list string)
  | NGetWorkload (id : string)
  | NNetworkConnect (workload : Workload.t) (network target ipv4 ipv6 : string)
  | NNetworkDisconnect (workload : Workload.t) (network target : string) (force : bool)
  | NLoggerErr (fields : Fields) (e : option error).

(** The collaborators, not part of the sources at hand, as parameters acting
    on the backend state.  [ListPodNodes] hands back a channel, here the list
    of the nodes it delivers; [PodNoNodes podname] is
    [types.NewDetailedErr(types.ErrPodNoNodes, podname)].  An engine result is
    handed on together with its error, so it is a pair; a slice is a list
    ([nil] is the empty list). *)
Variable ListPodNodes_ch : string → S → (error + list StoredNode) * S.
Variable PodNoNodes : string → error.
Variable Engine_NetworkList :
  string → list string → S → (list Network * option error) * S.
Variable GetWorkload : string → S → (error + Workload.t) * S.
Variable Engine_NetworkConnect :
  Workload.t → string → string → string → string → S → (list string * option error) * S.
Variable Engine_NetworkDisconnect :
  Workload.t → string → string → bool → S → option error * S.

Definition ncall {A} (ev : NetEvent) (op : S → A * S) : M (S * list NetEvent) A :=
  λ '(s, tr), let (a, s') := op s in (a, (s', tr ++ [ev])).

(** [logger.Err(ctx, err)]: logs the error and hands it back. *)
Definition nlogger_Err (logger : Fields) (e : option error)
  : M (S * list NetEvent) (option error) :=
  let* _ := ncall (NLoggerErr logger e) (λ s, (tt, s)) in ret e.

Definition ListNetworks (podname driver : string)
  : M (S * list NetEvent) (list Network * option error) :=
  let logger := [("Calcium", "ListNetworks"); ("podname", podname); ("driver", driver)] in
  let networks := [] in
  let* r := ncall (NListPodNodes podname) (ListPodNodes_ch podname) in
  match r with
  | inl err =>
      let* e := nlogger_Err logger (errors_WithStack (Some err)) in ret (networks, e)
  | inr nodes =>
      match nodes with
      | [] =>
          let* e := nlogger_Err logger (errors_WithStack (Some (PodNoNodes podname))) in
          ret (networks, e)
      | node :: _ =>
          let drivers := if decide (driver = "") then [] else [driver] in
          let* (networks, err) := ncall (NNetworkList (Node.Name node) drivers)
                                        (Engine_NetworkList (Node.Name node) drivers) in
          let* e := nlogger_Err logger (errors_WithStack err) in
          ret (networks, e)
      end
  end.

Definition ConnectNetwork (network target ipv4 ipv6 : string)
  : M (S * list NetEvent) (list string * option error) :=
  let logger := [("Calcium", "ConnectNetwork"); ("network", network); ("target", target);
                 ("ipv4", ipv4); ("ipv6", ipv6)] in
  let* r := ncall (NGetWorkload target) (GetWorkload target) in
  match r with
  | inl err =>
      let* e := nlogger_Err logger (errors_WithStack (Some err)) in ret ([], e)
  | inr workload =>
      let* (networks, err) :=
        ncall (NNetworkConnect workload network target ipv4 ipv6)
              (Engine_NetworkConnect workload network target ipv4 ipv6) in
      let* e := nlogger_Err logger (errors_WithStack err) in
      ret (networks, e)
  end.

Definition DisconnectNetwork (network target : string) (force : bool)
  : M (S * list NetEvent) (option error) :=
  let logger := [("Calcium", "DisconnectNetwork"); ("network", network);
                 ("target", target); ("force", if force then "true" else "false")] in
  let* r := ncall (NGetWorkload target) (GetWorkload target) in
  match r with
  | inl err => nlogger_Err logger (errors_WithStack (Some err))
  | inr workload =>
      let* err := ncall (NNetworkDisconnect workload network target force)
                        (Engine_NetworkDisconnect workload network target force) in
      nlogger_Err logger (errors_WithStack err)
  end.
End Networks.

Arguments ListNetworks {S Network}.
Arguments ConnectNetwork {S}.
Arguments DisconnectNetwork {S}.

(* ===================================================================== *)
(** ** Further test doubles                                               *)
(* ===================================================================== *)

(** The mock store with a workload listing that times out; the lock can
    still be taken. *)
Definition listing_fails : Backend Mock.t := {|
  ListPodNodes := @ListPodNodes _ Mock.backend;
  LockNode := @LockNode _ Mock.backend;
  UnlockNode := @UnlockNode _ Mock.backend;
  ListNodeWorkloads name s := (inl (errorString "etcd: request timed out"), s);
  store_ListNodeWorkloads name s := (inl (errorString "etcd: request timed out"), s);
  GetNode := @GetNode _ Mock.backend;
  store_UpdateNodes := @store_UpdateNodes _ Mock.backend;
  Engine_ResourceValidate := @Engine_ResourceValidate _ Mock.backend;
  Engine_VirtualizationResourceRemap := @Engine_VirtualizationResourceRemap _ Mock.backend;
|}.

(** A store with a pod that has no node. *)
Definition empty_pod_store : Mock.t :=
  Mock.mk {[ "n1" := busy_node ]} {[ "p0" := [] ]} {[ "n1" := busy_workloads ]}
          None None (inr []).

(** An engine that refuses to remap. *)
Definition remap_refused_store : Mock.t :=
  Mock.mk {[ "n1" := busy_node ]} {[ "p1" := ["n1"] ]} {[ "n1" := busy_workloads ]}
          None None (inl (errorString "engine: connection refused")).
Definition remap_refused_world : World Mock.t :=
  (decode_node busy_node (Mock.world remap_refused_store)).2.

(** A liveness probe that finds every workload but "w2". *)
Definition example_ErrEmptyNodeName : error := errorString "node name is empty".
Definition example_Inspect (workload : Workload.t) (s : Mock.t) : option error * Mock.t :=
  (if decide (Workload.ID workload = "w2")
   then Some (errorString "no such container") else None, s).

(** Collaborators of the planner: a capacity calculation that fails, and a
    staging that succeeds. *)
Definition failing_capacity (nodeMap opts : string) (s : unit)
  : (error + (Z * list string * string)) * unit :=
  (inl (errorString "not enough resource"), s).
Definition example_MakeDeployStatus (opts infos : string) (s : unit)
  : option error * unit :=
  (None, s).

Definition example_scheduleInfos : list ScheduleInfo.t :=
  [ ScheduleInfo.mk "n1" 3; ScheduleInfo.mk "n2" 0 ].

(** Collaborators of the network functions: a pod "p1" with the nodes of the
    examples above and no other pod with nodes, an engine that lists one
    network per driver asked for, and no workload at all. *)
Definition example_ListPodNodes_ch (podname : string) (s : unit)
  : (error + list StoredNode) * unit :=
  (inr (if decide (podname = "p1") then [busy_node; short_node] else []), s).
Definition example_PodNoNodes (podname : string) : error :=
  errorString ("pod has no nodes: " +:+ podname).
Definition example_NetworkList (nodename : string) (drivers : list string) (s : unit)
  : (list string * option error) * unit :=
  ((drivers, None), s).
Definition missing_GetWorkload (id : string) (s : unit) : (error + Workload.t) * unit :=
  (inl (errorString "workload not found"), s).
Definition example_NetworkConnect (workload : Workload.t)
    (network target ipv4 ipv6 : string) (s : unit)
  : (list string * option error) * unit :=
  (([ipv4], None), s).
Definition example_NetworkDisconnect (workload : Workload.t) (network target : string)
    (force : bool) (s : unit) : option error * unit :=
  (None, s).

(** Builders of the unit file: a new one, and one on which the unit section
    and the cgroup commands have been written, with a log type that
    [buildExec] does not support. *)
Definition example_opts (logType : string) : Systemd.VirtualizationCreateOptions :=
  Systemd.mkOpts "app" ∅ {[ "0" := 100%Z ]} 1.5 "" false 104857600 ["A=1"]
    logType "always" ["sleep"; "1"].
Definition new_builder : Systemd.unitBuilder :=
  Systemd.newUnitBuilder "c1" (example_opts "journald").
Definition syslog_builder : Systemd.unitBuilder :=
  Systemd.run_steps example_json example_d example_2f
    [Systemd.StepUnit; Systemd.StepPreExec]
    (Systemd.newUnitBuilder "c1" (example_opts "syslog")).

(* ===================================================================== *)
(** ** Arithmetic on 64 bits and merged maps                              *)
(* ===================================================================== *)

Lemma int64_wrap_range z : is_int64 (int64_wrap z).
Proof.
  unfold is_int64, int64_wrap.
  pose proof (Z.mod_pos_bound (z + 2 ^ 63) (2 ^ 64) ltac:(lia)). lia.
Qed.

Lemma int64_wrap_id z : is_int64 z → int64_wrap z = z.
Proof.
  unfold is_int64, int64_wrap. intros Hz.
  rewrite Z.mod_small by lia. lia.
Qed.

Lemma int64_wrap_add_r a b : int64_wrap (a + int64_wrap b) = int64_wrap (a + b).
Proof.
  unfold int64_wrap. f_equal.
  replace (a + ((b + 2 ^ 63) `mod` 2 ^ 64 - 2 ^ 63) + 2 ^ 63)%Z
    with (a + (b + 2 ^ 63) `mod` 2 ^ 64)%Z by lia.
  rewrite Zplus_mod_idemp_r. f_equal. lia.
Qed.

Lemma int64_wrap_add_l a b : int64_wrap (int64_wrap a + b) = int64_wrap (a + b).
Proof. rewrite (Z.add_comm (int64_wrap a)), int64_wrap_add_r. f_equal. lia. Qed.

Lemma int64_add_0_l a : is_int64 a → int64_add 0 a = a.
Proof. intros. unfold int64_add. by rewrite Z.add_0_l, int64_wrap_id. Qed.

Lemma int64_add_0_r a : is_int64 a → int64_add a 0 = a.
Proof. intros. unfold int64_add. by rewrite Z.add_0_r, int64_wrap_id. Qed.

Lemma is_int64_0 : is_int64 0.
Proof. unfold is_int64. lia. Qed.

Lemma lookup_CPUMap_Add (c q : CPUMap) i :
  CPUMap_Add c q !! i =
  match c !! i, q !! i with
  | Some a, Some b => Some (int64_add a b)
  | Some a, None => Some a
  | None, o => o
  end.
Proof.
  unfold CPUMap_Add. rewrite lookup_union_with.
  by destruct (c !! i), (q !! i).
Qed.

Lemma dom_CPUMap_Add (c q : CPUMap) : dom (CPUMap_Add c q) = dom c ∪ dom q.
Proof.
  apply set_eq. intros i.
  rewrite elem_of_union, !elem_of_dom, lookup_CPUMap_Add, !is_Some_alt.
  destruct (c !! i), (q !! i); tauto.
Qed.

Lemma get_int64 (m : CPUMap) i : int64_map m → is_int64 (get m i).
Proof.
  intros Hm. unfold get. destruct (m !! i) as [v|] eqn:E; simpl.
  - exact (Hm i v E).
  - apply is_int64_0.
Qed.

Lemma int64_map_Add (c q : CPUMap) : int64_map c → int64_map q → int64_map (CPUMap_Add c q).
Proof.
  intros Hc Hq i v. rewrite lookup_CPUMap_Add.
  destruct (c !! i) as [a|] eqn:Ec, (q !! i) as [b|] eqn:Eq; intros [= <-].
  - apply int64_wrap_range.
  - exact (Hc i a Ec).
  - exact (Hq i b Eq).
Qed.

Lemma get_CPUMap_Add (c q : CPUMap) i :
  int64_map c → int64_map q →
  get (CPUMap_Add c q) i = int64_add (get c i) (get q i).
Proof.
  intros Hc Hq. unfold get at 1. rewrite lookup_CPUMap_Add.
  pose proof (get_int64 c i Hc) as Hci. pose proof (get_int64 q i Hq) as Hqi.
  unfold get in *.
  destruct (c !! i) as [a|], (q !! i) as [b|]; simpl in *.
  - done.
  - by rewrite int64_add_0_r.
  - by rewrite int64_add_0_l.
  - by rewrite int64_add_0_l.
Qed.

Lemma int64_map_empty : int64_map ∅.
Proof. apply map_Forall_empty. Qed.

(** Merging a list of maps into [a], one after the other. *)
Lemma foldl_Add_int64 (ms : list CPUMap) (a : CPUMap) :
  int64_map a → Forall int64_map ms → int64_map (foldl CPUMap_Add a ms).
Proof.
  revert a. induction ms as [|m ms IH]; intros a Ha Hms; simpl; [done|].
  inversion Hms; subst. apply IH; [by apply int64_map_Add | done].
Qed.

Lemma foldl_Add_get (ms : list CPUMap) (a : CPUMap) i :
  int64_map a → Forall int64_map ms →
  get (foldl CPUMap_Add a ms) i
  = int64_wrap (get a i + foldr Z.add 0%Z ((λ m, get m i) <$> ms)).
Proof.
  revert a. induction ms as [|m ms IH]; intros a Ha Hms.
  - simpl. rewrite Z.add_0_r, int64_wrap_id; [done | by apply get_int64].
  - inversion Hms; subst.
    rewrite fmap_cons. cbn [foldl foldr].
    rewrite IH by (by try apply int64_map_Add).
    rewrite get_CPUMap_Add by done. unfold int64_add.
    rewrite int64_wrap_add_l. f_equal. lia.
Qed.

Lemma foldl_Add_dom (ms : list CPUMap) (a : CPUMap) i :
  i ∈ dom (foldl CPUMap_Add a ms) ↔ i ∈ dom a ∨ Exists (λ m, i ∈ dom m) ms.
Proof.
  revert a. induction ms as [|m ms IH]; intros a; simpl.
  - rewrite Exists_nil. tauto.
  - rewrite IH, dom_CPUMap_Add, elem_of_union, Exists_cons. tauto.
Qed.

(* ===================================================================== *)
(** ** Reporter and drift corrector: lemmas                               *)
(* ===================================================================== *)

(** Unfolds the state-passing primitives. *)
Ltac run := unfold bind, ret, call, emit, load, store, alloc, logger_Err,
                   decode_node, encode_node; simpl.

(** Closes a goal that exhibits the report of a successful computation. *)
Ltac close_report verr :=
  eexists _, _, verr; split; [reflexivity|]; simpl;
  repeat split; try done; try (by rewrite <- ?app_assoc).

Section ReporterFacts.
Context {S : Type} `{!Backend S}.
Variable Round : float → float.
Variable config : Config.

Lemma aggregate_from_cpus (ws : list Workload.t) (u : Usage) :
  cpus (foldl (accumulate Round) u ws)
  = foldl (λ acc w, Round (acc + Workload.CPUQuotaRequest w)%float) (cpus u) ws.
Proof. revert u. induction ws as [|w ws IH]; intros u; simpl; [done|]. by rewrite IH. Qed.

Lemma aggregate_from_memory (ws : list Workload.t) (u : Usage) :
  is_int64 (memory u) →
  memory (foldl (accumulate Round) u ws)
  = int64_wrap (memory u + foldr Z.add 0%Z (Workload.MemoryRequest <$> ws)).
Proof.
  revert u. induction ws as [|w ws IH]; intros u Hu.
  - simpl. by rewrite Z.add_0_r, int64_wrap_id.
  - rewrite fmap_cons. cbn [foldl foldr].
    rewrite IH by apply int64_wrap_range. simpl. unfold int64_add.
    rewrite int64_wrap_add_l. f_equal. lia.
Qed.

Lemma aggregate_from_storage (ws : list Workload.t) (u : Usage) :
  is_int64 (storage u) →
  storage (foldl (accumulate Round) u ws)
  = int64_wrap (storage u + foldr Z.add 0%Z (Workload.StorageRequest <$> ws)).
Proof.
  revert u. induction ws as [|w ws IH]; intros u Hu.
  - simpl. by rewrite Z.add_0_r, int64_wrap_id.
  - rewrite fmap_cons. cbn [foldl foldr].
    rewrite IH by apply int64_wrap_range. simpl. unfold int64_add.
    rewrite int64_wrap_add_l. f_equal. lia.
Qed.

Lemma aggregate_from_cpumap (ws : list Workload.t) (u : Usage) :
  cpumap (foldl (accumulate Round) u ws)
  = foldl CPUMap_Add (cpumap u) (Workload.CPU <$> ws).
Proof. revert u. induction ws as [|w ws IH]; intros u; simpl; [done|]. by rewrite IH. Qed.

(** The corrector leaves every map object that exists before the call as it
    is: it writes only to the map of the node it fetches. *)
Lemma doFixDiffResource_heap node c m s (w : World S) l :
  is_Some (heap w !! l) →
  heap (doFixDiffResource config node c m s w).2 !! l = heap w !! l.
Proof.
  intros Hl. unfold doFixDiffResource, Txn, doFixDiffResource_cond, doFixDiffResource_then.
  run. destruct (GetNode (Node.Name node) (backend w)) as [[err|sn] s1]; simpl; [done|].
  destruct (store_UpdateNodes _ s1) as [e s2]; simpl.
  assert (fresh (dom (heap w)) ≠ l) as Hne.
  { intros <-. apply elem_of_dom in Hl. by apply is_fresh in Hl. }
  by rewrite !lookup_insert_ne.
Qed.


Lemma doGetNodeResource_func_report fix_ node nr0 (w : World S) ws s1 :
  ListNodeWorkloads (Node.Name node) (backend w) = (inr ws, s1) →
  let u := aggregate Round ws in
  let merged := CPUMap_Add (deref (heap w) (Node.CPU node)) (cpumap u) in
  ∃ nr w' verr,
    doGetNodeResource_func Round config fix_ node nr0 w = ((Some nr, None), w')
    ∧ NodeResource.CPU nr = Node.CPU node
    ∧ NodeResource.Diffs nr
      = cpuused_diffs node (cpus u) ++ cpu_diffs (Node.InitCPU node) merged
        ++ memory_diffs node (memory u) ++ storage_diffs node (storage u)
        ++ validate_diffs verr
    ∧ NodeResource.StoragePercent nr = storage_percent node (storage u).
Proof.
  intros Hws u merged.
  unfold doGetNodeResource_func. run. rewrite Hws. simpl. fold u.
  destruct (Engine_ResourceValidate (Node.Name node) (cpus u) (cpumap u) (memory u)
              (storage u) s1) as [verr s2] eqn:Hv.
  assert (deref (<[Node.CPU node := merged]> (heap w)) (Node.CPU node) = merged) as Hd.
  { unfold deref. by rewrite lookup_insert_eq. }
  fold merged. rewrite Hd.
  destruct fix_; [|close_report verr].
  match goal with
  | |- context [doFixDiffResource ?c ?n ?a ?b ?d ?W] =>
      destruct (doFixDiffResource c n a b d W) as [[e|] w2]
  end; close_report verr.
Qed.

Lemma doGetNodeResource_func_heap fix_ node nr0 (w : World S) ws s1 :
  ListNodeWorkloads (Node.Name node) (backend w) = (inr ws, s1) →
  is_Some (heap w !! Node.CPU node) →
  heap (doGetNodeResource_func Round config fix_ node nr0 w).2 !! Node.CPU node
  = Some (CPUMap_Add (deref (heap w) (Node.CPU node)) (cpumap (aggregate Round ws))).
Proof.
  intros Hws Hl.
  unfold doGetNodeResource_func. run. rewrite Hws. simpl.
  set (u := aggregate Round ws).
  set (merged := CPUMap_Add (deref (heap w) (Node.CPU node)) (cpumap u)).
  destruct (Engine_ResourceValidate (Node.Name node) (cpus u) (cpumap u) (memory u)
              (storage u) s1) as [verr s2] eqn:Hv.
  destruct fix_; simpl; [|by rewrite lookup_insert_eq].
  match goal with
  | |- context [doFixDiffResource ?c ?n ?a ?b ?d ?W] =>
      pose proof (doFixDiffResource_heap n a b d W (Node.CPU node)) as Hf;
      destruct (doFixDiffResource c n a b d W) as [[e|] w2]
  end; simpl in *; rewrite lookup_insert_eq in Hf; apply Hf; by eexists.
Qed.

(** Which per-core entries the drift check appends. *)
Lemma elem_of_cpu_diffs (InitCPU merged : CPUMap) i d :
  DiffCPU i d ∈ cpu_diffs InitCPU merged
  ↔ ∃ v, merged !! i = Some v ∧ get InitCPU i ≠ v ∧ d = int64_sub (get InitCPU i) v.
Proof.
  unfold cpu_diffs. rewrite list_elem_of_omap. split.
  - intros ([j v] & Hin & Hf). apply elem_of_map_to_list in Hin. simpl in Hf.
    case_bool_decide; [|done]. injection Hf as <- <-. by exists v.
  - intros (v & Hm & Hne & ->). exists (i, v). split.
    + by apply elem_of_map_to_list.
    + simpl. by rewrite bool_decide_eq_true_2.
Qed.

Lemma DiffCPU_in_diffs node u merged verr i d :
  DiffCPU i d ∈ cpuused_diffs node (cpus u) ++ cpu_diffs (Node.InitCPU node) merged
                 ++ memory_diffs node (memory u) ++ storage_diffs node (storage u)
                 ++ validate_diffs verr
  ↔ DiffCPU i d ∈ cpu_diffs (Node.InitCPU node) merged.
Proof.
  rewrite !elem_of_app.
  unfold cpuused_diffs, memory_diffs, storage_diffs, validate_diffs.
  split; [|tauto].
  intros [H|[H|[H|[H|H]]]]; [|done|..];
    repeat case_bool_decide; repeat case_match;
    by repeat (apply elem_of_cons in H as [H|H]; [discriminate|]);
       try apply elem_of_nil in H.
Qed.

Lemma DiffStorage_in_diffs node u merged verr c d :
  DiffStorage c d ∈ cpuused_diffs node (cpus u) ++ cpu_diffs (Node.InitCPU node) merged
                     ++ memory_diffs node (memory u) ++ storage_diffs node (storage u)
                     ++ validate_diffs verr
  ↔ DiffStorage c d ∈ storage_diffs node (storage u).
Proof.
  rewrite !elem_of_app.
  unfold cpuused_diffs, memory_diffs, validate_diffs.
  split; [|tauto].
  intros [H|[H|[H|[H|H]]]]; [| |..|]; try done.
  - case_match; by repeat (apply elem_of_cons in H as [H|H]; [discriminate|]);
      try apply elem_of_nil in H.
  - unfold cpu_diffs in H. apply list_elem_of_omap in H as ([j v] & _ & Hf).
    simpl in Hf. by case_bool_decide.
  - case_bool_decide; by repeat (apply elem_of_cons in H as [H|H]; [discriminate|]);
      try apply elem_of_nil in H.
  - case_match; by repeat (apply elem_of_cons in H as [H|H]; [discriminate|]);
      try apply elem_of_nil in H.
Qed.

End ReporterFacts.

(* ===================================================================== *)
(** ** Reporter: the properties claimed                                   *)
(* ===================================================================== *)

Section ReporterClaims.
Context {S : Type} `{!Backend S}.
Variable Round : float → float.
Variable config : Config.

(** C3 (as amended).  The loop over the workloads of a node leaves: as CPU
    figure, the running total rounded after every addition, starting from 0
    (the rounding is applied to the total so far plus the next request, not
    to each request on its own); as memory and storage, the 64-bit sums of
    [MemoryRequest] and of [StorageRequest]; as CPU map, the core-wise merge
    of the workloads' CPU maps, in order. *)
Theorem C3_aggregate_running_totals (workloads : list Workload.t) :
  let u := aggregate Round workloads in
  cpus u = foldl (λ acc w, Round (acc + Workload.CPUQuotaRequest w)%float) 0%float workloads
  ∧ memory u = int64_wrap (foldr Z.add 0%Z (Workload.MemoryRequest <$> workloads))
  ∧ storage u = int64_wrap (foldr Z.add 0%Z (Workload.StorageRequest <$> workloads))
  ∧ cpumap u = foldl CPUMap_Add ∅ (Workload.CPU <$> workloads).
Proof.
  unfold aggregate. repeat split.
  - by rewrite aggregate_from_cpus.
  - by rewrite aggregate_from_memory by apply is_int64_0.
  - by rewrite aggregate_from_storage by apply is_int64_0.
  - by rewrite aggregate_from_cpumap.
Qed.

(** C1 (as amended).  The drift check makes no copy: it merges the aggregated
    workload CPU map into [node.CPU] itself, and the report's [CPU] field is
    that same map object.  After a successful computation the node's CPU map
    in memory, and with it the report's CPU field, holds the core-wise merge
    of [node.CPU] as read at the start with the workloads' CPU maps. *)
Theorem C1_drift_check_merges_into_node_CPU
    fix_ (node : Node) nr0 (w : World S) (workloads : list Workload.t) s1 :
  ListNodeWorkloads (Node.Name node) (backend w) = (inr workloads, s1) →
  is_Some (heap w !! Node.CPU node) →
  ∃ nr w',
    doGetNodeResource_func Round config fix_ node nr0 w = ((Some nr, None), w')
    ∧ NodeResource.CPU nr = Node.CPU node
    ∧ deref (heap w') (Node.CPU node)
      = CPUMap_Add (deref (heap w) (Node.CPU node))
                   (foldl CPUMap_Add ∅ (Workload.CPU <$> workloads)).
Proof.
  intros Hws Hl.
  destruct (doGetNodeResource_func_report Round config fix_ node nr0 w workloads s1 Hws)
    as (nr & w' & verr & Hrun & Hcpu & _).
  pose proof (doGetNodeResource_func_heap Round config fix_ node nr0 w workloads s1 Hws Hl)
    as Hheap.
  rewrite Hrun in Hheap. simpl in Hheap.
  exists nr, w'. repeat split; [done..|].
  unfold deref at 1. rewrite Hheap. simpl.
  unfold aggregate. by rewrite aggregate_from_cpumap.
Qed.

(** The map the drift check iterates: its cores and its values. *)
Lemma merged_lookup (c : CPUMap) (workloads : list Workload.t) i :
  int64_map c → Forall (λ w, int64_map (Workload.CPU w)) workloads →
  let merged := CPUMap_Add c (foldl CPUMap_Add ∅ (Workload.CPU <$> workloads)) in
  (is_Some (merged !! i) ↔ core_known c workloads i)
  ∧ get merged i = core_total c workloads i.
Proof.
  intros Hc Hws merged.
  assert (Forall int64_map (Workload.CPU <$> workloads)) as Hms.
  { by apply Forall_fmap. }
  split.
  - rewrite <- elem_of_dom. unfold merged.
    rewrite dom_CPUMap_Add, elem_of_union, foldl_Add_dom, dom_empty, Exists_fmap.
    unfold core_known. pose proof (not_elem_of_empty (C:=gset string) i). tauto.
  - unfold merged. rewrite get_CPUMap_Add; [|done|].
    + rewrite foldl_Add_get by (done || apply int64_map_empty).
      unfold core_total, int64_add, get at 2. rewrite lookup_empty. simpl.
      rewrite Z.add_0_l, int64_wrap_add_r. do 2 f_equal.
      by rewrite <- list_fmap_compose.
    + apply foldl_Add_int64; [apply int64_map_empty | done].
Qed.

(** C2 (as amended).  The per-core check ranges over the cores of the merged
    map, that is over the cores of [node.CPU] (as read at the start) and of
    the workloads.  For such a core [i] a diff entry is reported exactly when
    [InitCPU[i]] differs from [node.CPU[i]] plus the sum of the workloads'
    [CPU[i]] (64-bit arithmetic, an absent entry counting 0); for any other
    core no entry is reported, whatever [InitCPU] holds for it. *)
Theorem C2_core_diff_reported_iff
    fix_ (node : Node) nr0 (w : World S) (workloads : list Workload.t) s1 (i : string) :
  ListNodeWorkloads (Node.Name node) (backend w) = (inr workloads, s1) →
  int64_map (deref (heap w) (Node.CPU node)) →
  Forall (λ wl, int64_map (Workload.CPU wl)) workloads →
  ∃ nr w',
    doGetNodeResource_func Round config fix_ node nr0 w = ((Some nr, None), w')
    ∧ ((∃ d, DiffCPU i d ∈ NodeResource.Diffs nr)
       ↔ core_known (deref (heap w) (Node.CPU node)) workloads i
         ∧ get (Node.InitCPU node) i
           ≠ core_total (deref (heap w) (Node.CPU node)) workloads i).
Proof.
  intros Hws Hc Hwl.
  destruct (doGetNodeResource_func_report Round config fix_ node nr0 w workloads s1 Hws)
    as (nr & w' & verr & Hrun & _ & Hdiffs & _).
  exists nr, w'. split; [done|].
  rewrite Hdiffs. unfold aggregate. rewrite aggregate_from_cpumap. simpl.
  destruct (merged_lookup (deref (heap w) (Node.CPU node)) workloads i Hc Hwl)
    as [Hknown Htotal].
  rewrite <- Hknown, <- Htotal.
  set (merged := CPUMap_Add _ _).
  split.
  - intros [d Hd]. apply DiffCPU_in_diffs, elem_of_cpu_diffs in Hd as (v & Hv & Hne & _).
    unfold get at 2. rewrite Hv. split; [by eexists | done].
  - intros [[v Hv] Hne]. exists (int64_sub (get (Node.InitCPU node) i) v).
    apply DiffCPU_in_diffs, elem_of_cpu_diffs. exists v.
    unfold get at 2 in Hne. rewrite Hv in Hne. done.
Qed.

(** C7.  For a node with [InitStorageCap = 0] the report has
    [StoragePercent = 0] and no storage drift entry among its diffs, whatever
    the workloads' storage requests and the node's [StorageCap] are. *)
Theorem C7_no_storage_check_without_capacity
    fix_ (node : Node) nr0 (w : World S) (workloads : list Workload.t) s1 :
  Node.InitStorageCap node = 0%Z →
  ListNodeWorkloads (Node.Name node) (backend w) = (inr workloads, s1) →
  ∃ nr w',
    doGetNodeResource_func Round config fix_ node nr0 w = ((Some nr, None), w')
    ∧ NodeResource.StoragePercent nr = 0%float
    ∧ ∀ cap d, DiffStorage cap d ∉ NodeResource.Diffs nr.
Proof.
  intros Hcap Hws.
  destruct (doGetNodeResource_func_report Round config fix_ node nr0 w workloads s1 Hws)
    as (nr & w' & verr & Hrun & _ & Hdiffs & Hpct).
  exists nr, w'. split; [done|]. split.
  - rewrite Hpct. unfold storage_percent. by rewrite bool_decide_eq_false_2 by (by intros ?).
  - intros cap d Hin. rewrite Hdiffs in Hin. apply DiffStorage_in_diffs in Hin.
    unfold storage_diffs in Hin.
    rewrite bool_decide_eq_false_2 in Hin by (by intros ?). by apply elem_of_nil in Hin.
Qed.
End ReporterClaims.

(* ===================================================================== *)
(** ** Reporter: the claims at concrete inputs                            *)
(* ===================================================================== *)

Example math_Round_halves :
  math_Round 2.5 = 3%float ∧ math_Round (-2.5) = (-3)%float
  ∧ math_Round 0.4 = 0%float ∧ math_Round 1.6 = 2%float.
Proof. repeat split; reflexivity. Qed.

Example utils_Round_two_decimals : utils_Round 100 0.0199999998 = 0.02%float.
Proof. reflexivity. Qed.

(** The scenario of the specification: the report shows the CPU-usage diff
    (1.0 recorded, 1.5 observed) and a diff for each of the two cores. *)
Example scenario_report :
  ∃ nr w',
    doGetNodeResource (utils_Round 100) example_config "n1" false
      (Mock.world scenario_store) = ((Some nr, None), w')
    ∧ DiffCPUUsed 1 1.5 ∈ NodeResource.Diffs nr
    ∧ DiffCPU "0" (-50) ∈ NodeResource.Diffs nr
    ∧ DiffCPU "1" (-100) ∈ NodeResource.Diffs nr.
Proof.
  destruct (doGetNodeResource (utils_Round 100) example_config "n1" false
              (Mock.world scenario_store)) as [[nr e] w'] eqn:Hrun.
  vm_compute in Hrun. injection Hrun as <- <- <-.
  eexists _, _. split; [reflexivity|]. simpl.
  repeat split; repeat (first [apply list_elem_of_here | apply list_elem_of_further]).
Qed.

(** C1, at the busy node with the corrector switched on. *)
Lemma C1_witness :
  ∃ nr w',
    doGetNodeResource_func (utils_Round 100) example_config true busy_node_in_memory None
      busy_world = ((Some nr, None), w')
    ∧ NodeResource.CPU nr = Node.CPU busy_node_in_memory
    ∧ deref (heap w') (Node.CPU busy_node_in_memory)
      = CPUMap_Add (deref (heap busy_world) (Node.CPU busy_node_in_memory))
                   (foldl CPUMap_Add ∅ (Workload.CPU <$> busy_workloads)).
Proof.
  apply (C1_drift_check_merges_into_node_CPU (utils_Round 100) example_config true
           busy_node_in_memory None busy_world busy_workloads busy_store).
  - reflexivity.
  - vm_compute. eauto.
Defined.

(** C1 as first stated fails: one workload holds 50 shares of core 0 of a
    node whose [CPU] map reads [{0: 100}]; the report's CPU field then holds
    [{0: 150}], not the map read at the start. *)
Lemma C1_counterexample :
  ∃ nr w',
    doGetNodeResource (utils_Round 100) example_config "n1" false (Mock.world busy_store)
    = ((Some nr, None), w')
    ∧ deref (heap w') (NodeResource.CPU nr) ≠ Node.CPU busy_node.
Proof.
  destruct (doGetNodeResource (utils_Round 100) example_config "n1" false
              (Mock.world busy_store)) as [[nr e] w'] eqn:Hrun.
  vm_compute in Hrun. injection Hrun as <- <- <-.
  eexists _, _. split; [reflexivity|].
  intros H. apply (f_equal (λ m : CPUMap, m !! "0")) in H. vm_compute in H. discriminate.
Qed.

(** C2, at core 0 of the busy node. *)
Lemma C2_witness :
  ∃ nr w',
    doGetNodeResource_func (utils_Round 100) example_config false busy_node_in_memory None
      busy_world = ((Some nr, None), w')
    ∧ ((∃ d, DiffCPU "0" d ∈ NodeResource.Diffs nr)
       ↔ core_known (deref (heap busy_world) (Node.CPU busy_node_in_memory))
           busy_workloads "0"
         ∧ get (Node.InitCPU busy_node_in_memory) "0"
           ≠ core_total (deref (heap busy_world) (Node.CPU busy_node_in_memory))
               busy_workloads "0").
Proof.
  apply (C2_core_diff_reported_iff (utils_Round 100) example_config false
           busy_node_in_memory None busy_world busy_workloads busy_store "0").
  - reflexivity.
  - change (int64_map {[ "0" := 100%Z ]}). apply map_Forall_singleton. unfold is_int64. lia.
  - constructor; [|constructor; [|constructor]].
    + change (int64_map {[ "0" := 50%Z ]}). apply map_Forall_singleton. unfold is_int64. lia.
    + apply map_Forall_empty.
Defined.

(** C2 as first stated fails: [InitCPU] has a core 1 with 100 shares that
    neither [node.CPU] nor any workload mentions; the equation is violated at
    core 1 and no entry for core 1 is reported. *)
Lemma C2_counterexample :
  ∃ nr w',
    doGetNodeResource (utils_Round 100) example_config "n1" false (Mock.world short_store)
    = ((Some nr, None), w')
    ∧ get (Node.InitCPU short_node) "1" ≠ core_total (Node.CPU short_node) [] "1"
    ∧ ¬ ∃ d, DiffCPU "1" d ∈ NodeResource.Diffs nr.
Proof.
  destruct (doGetNodeResource (utils_Round 100) example_config "n1" false
              (Mock.world short_store)) as [[nr e] w'] eqn:Hrun.
  vm_compute in Hrun. injection Hrun as <- <- <-.
  eexists _, _. split; [reflexivity|]. split.
  - vm_compute. discriminate.
  - simpl. intros [d Hd]. by apply elem_of_nil in Hd.
Qed.

(** C3 as first stated fails: with requests 0.1 and 0.2 the loop yields 0.3
    (the running total 0.1 + 0.2 is rounded), while the sum of the rounded
    requests is 0.1 + 0.2 = 0.30000000000000004 in binary64, at two decimals
    and at nine. *)
Lemma C3_counterexample :
  cpus (aggregate (utils_Round 100) busy_workloads) ≠ spec_cpus (utils_Round 100) busy_workloads
  ∧ cpus (aggregate (utils_Round 1000000000) busy_workloads)
    ≠ spec_cpus (utils_Round 1000000000) busy_workloads.
Proof.
  split; intros H;
    apply (f_equal (λ x, PrimFloat.eqb x 0.3%float)) in H; vm_compute in H; discriminate.
Qed.

(** C7, at a node without storage capacity whose workloads request storage. *)
Lemma C7_witness :
  ∃ nr w',
    doGetNodeResource_func (utils_Round 100) example_config false busy_node_in_memory None
      busy_world = ((Some nr, None), w')
    ∧ NodeResource.StoragePercent nr = 0%float
    ∧ ∀ cap d, DiffStorage cap d ∉ NodeResource.Diffs nr.
Proof.
  apply (C7_no_storage_check_without_capacity (utils_Round 100) example_config false
           busy_node_in_memory None busy_world busy_workloads busy_store);
    reflexivity.
Defined.

Lemma deref_insert_eq (h : Heap) l (m : CPUMap) : deref (<[l := m]> h) l = m.
Proof. unfold deref. by rewrite lookup_insert_eq. Qed.

Lemma deref_insert_ne (h : Heap) l l' (m : CPUMap) :
  l ≠ l' → deref (<[l := m]> h) l' = deref h l'.
Proof. intros. unfold deref. by rewrite lookup_insert_ne. Qed.

(* ===================================================================== *)
(** ** Drift corrector                                                    *)
(* ===================================================================== *)

Section CorrectorClaims.
Context {S : Type} `{!Backend S}.
Variable config : Config.

(** The loop [n.CPU[i] += node.InitCPU[i] - v] visits every core of
    [node.CPU] once. *)
Lemma fix_core_foldl (InitCPU : CPUMap) (l : list (string * Z)) (m : CPUMap) i :
  NoDup l.*1 →
  (∀ v, (i, v) ∈ l →
        foldl (fix_core InitCPU) m l !! i
        = Some (int64_add (get m i) (int64_sub (get InitCPU i) v)))
  ∧ (i ∉ l.*1 → foldl (fix_core InitCPU) m l !! i = m !! i).
Proof.
  revert m. induction l as [|[j u] l IH]; intros m Hnd.
  - split; [|done]. intros v Hv. by apply elem_of_nil in Hv.
  - rewrite fmap_cons in Hnd. apply NoDup_cons in Hnd as [Hj Hnd]. simpl in Hj.
    cbn [foldl]. unfold fix_core at 2 4. simpl.
    destruct (IH (<[j:=int64_add (get m j) (int64_sub (get InitCPU j) u)]> m) Hnd)
      as [IH1 IH2].
    split.
    + intros v Hv. apply elem_of_cons in Hv as [[= -> ->]|Hv].
      * rewrite IH2 by done. by rewrite lookup_insert_eq.
      * assert (i ≠ j) as Hij.
        { intros ->. apply Hj. apply list_elem_of_fmap. by exists (j, v). }
        rewrite (IH1 v Hv). unfold get at 1. by rewrite lookup_insert_ne.
    + intros Hi. apply not_elem_of_cons in Hi as [Hij Hi].
      rewrite IH2 by done. by rewrite lookup_insert_ne.
Qed.

Lemma fix_core_map (InitCPU nodeCPU nCPU : CPUMap) i :
  foldl (fix_core InitCPU) nCPU (map_to_list nodeCPU) !! i
  = match nodeCPU !! i with
    | Some v => Some (int64_add (get nCPU i) (int64_sub (get InitCPU i) v))
    | None => nCPU !! i
    end.
Proof.
  destruct (fix_core_foldl InitCPU (map_to_list nodeCPU) nCPU i
              (NoDup_fst_map_to_list nodeCPU)) as [H1 H2].
  destruct (nodeCPU !! i) as [v|] eqn:E.
  - apply H1. by apply elem_of_map_to_list.
  - apply H2. intros Hin. apply list_elem_of_fmap in Hin as ([j v] & -> & Hin).
    apply elem_of_map_to_list in Hin. simpl in *. congruence.
Qed.

(** C4.  When the re-fetch succeeds, [doFixDiffResource] calls the store
    twice, [GetNode] then [UpdateNodes], and hands [UpdateNodes] the fetched
    node [n] corrected as follows: [CPUUsed] is [cpus]; every core [i] of the
    locked node's [CPU] map has its share raised by [InitCPU[i] - node.CPU[i]]
    and the other cores keep theirs; [MemCap] is raised by
    [InitMemCap - (memory + node.MemCap)] and [StorageCap] by
    [InitStorageCap - (storage + node.StorageCap)] (64-bit arithmetic); the
    remaining fields are those fetched.  The result is the wrapped error of
    that update. *)
Theorem C4_fix_commits_corrected_node
    (node : Node) (cpus : float) (memory storage : Z) (w : World S)
    (fetched : StoredNode) s1 :
  GetNode (Node.Name node) (backend w) = (inr fetched, s1) →
  is_Some (heap w !! Node.CPU node) →
  ∃ (n : StoredNode) w',
    doFixDiffResource config node cpus memory storage w
    = (errors_WithStack (store_UpdateNodes (Some n) s1).1, w')
    ∧ trace w' = trace w ++ [EGetNode (Node.Name node); EUpdateNodes (Some n)]
    ∧ backend w' = (store_UpdateNodes (Some n) s1).2
    ∧ Node.CPUUsed n = cpus
    ∧ (∀ i, Node.CPU n !! i
            = match deref (heap w) (Node.CPU node) !! i with
              | Some v => Some (int64_add (get (Node.CPU fetched) i)
                                  (int64_sub (get (Node.InitCPU node) i) v))
              | None => Node.CPU fetched !! i
              end)
    ∧ Node.MemCap n
      = int64_add (Node.MemCap fetched)
          (int64_sub (Node.InitMemCap node) (int64_add memory (Node.MemCap node)))
    ∧ Node.StorageCap n
      = int64_add (Node.StorageCap fetched)
          (int64_sub (Node.InitStorageCap node) (int64_add storage (Node.StorageCap node)))
    ∧ Node.Name n = Node.Name fetched
    ∧ Node.InitCPU n = Node.InitCPU fetched
    ∧ Node.InitMemCap n = Node.InitMemCap fetched
    ∧ Node.InitStorageCap n = Node.InitStorageCap fetched
    ∧ Node.VolumeUsed n = Node.VolumeUsed fetched
    ∧ Node.InitVolume n = Node.InitVolume fetched
    ∧ Node.NUMAMemory n = Node.NUMAMemory fetched
    ∧ Node.InitNUMAMemory n = Node.InitNUMAMemory fetched.
Proof.
  intros Hget Hl.
  assert (fresh (dom (heap w)) ≠ Node.CPU node) as Hne.
  { intros Heq. apply elem_of_dom in Hl. rewrite <- Heq in Hl. by apply is_fresh in Hl. }
  unfold doFixDiffResource, Txn, doFixDiffResource_cond, doFixDiffResource_then.
  run. rewrite Hget. simpl.
  rewrite !deref_insert_eq, deref_insert_ne by done.
  match goal with
  | |- context [store_UpdateNodes (Some ?n) s1] =>
      exists n; destruct (store_UpdateNodes (Some n) s1) as [uerr s2] eqn:Hupd
  end.
  eexists. split; [reflexivity|]. simpl.
  rewrite <- app_assoc. repeat split; try done.
  intros i. apply fix_core_map.
Qed.

(** C5.  When the re-fetch fails, [doFixDiffResource] hands that error back
    and has made one call only, the failed [GetNode]: [UpdateNodes] is not
    invoked, and the store is in the state that [GetNode] left. *)
Theorem C5_fix_fetch_error_skips_update
    (node : Node) (cpus : float) (memory storage : Z) (w : World S) (err : error) s1 :
  GetNode (Node.Name node) (backend w) = (inl err, s1) →
  doFixDiffResource config node cpus memory storage w
  = (Some err, mkWorld (heap w) s1 (trace w ++ [EGetNode (Node.Name node)])).
Proof.
  intros Hget.
  unfold doFixDiffResource, Txn, doFixDiffResource_cond. run. by rewrite Hget.
Qed.
End CorrectorClaims.

(** C4, at the busy node. *)
Lemma C4_witness :
  ∃ (n : StoredNode) w',
    doFixDiffResource example_config busy_node_in_memory 0.3 20 7 busy_world
    = (errors_WithStack (store_UpdateNodes (Some n) busy_store).1, w')
    ∧ trace w' = trace busy_world ++ [EGetNode "n1"; EUpdateNodes (Some n)]
    ∧ backend w' = (store_UpdateNodes (Some n) busy_store).2
    ∧ Node.CPUUsed n = 0.3%float
    ∧ (∀ i, Node.CPU n !! i
            = match deref (heap busy_world) (Node.CPU busy_node_in_memory) !! i with
              | Some v => Some (int64_add (get (Node.CPU busy_node) i)
                                  (int64_sub (get (Node.InitCPU busy_node_in_memory) i) v))
              | None => Node.CPU busy_node !! i
              end)
    ∧ Node.MemCap n
      = int64_add (Node.MemCap busy_node)
          (int64_sub (Node.InitMemCap busy_node_in_memory)
             (int64_add 20 (Node.MemCap busy_node_in_memory)))
    ∧ Node.StorageCap n
      = int64_add (Node.StorageCap busy_node)
          (int64_sub (Node.InitStorageCap busy_node_in_memory)
             (int64_add 7 (Node.StorageCap busy_node_in_memory)))
    ∧ Node.Name n = Node.Name busy_node
    ∧ Node.InitCPU n = Node.InitCPU busy_node
    ∧ Node.InitMemCap n = Node.InitMemCap busy_node
    ∧ Node.InitStorageCap n = Node.InitStorageCap busy_node
    ∧ Node.VolumeUsed n = Node.VolumeUsed busy_node
    ∧ Node.InitVolume n = Node.InitVolume busy_node
    ∧ Node.NUMAMemory n = Node.NUMAMemory busy_node
    ∧ Node.InitNUMAMemory n = Node.InitNUMAMemory busy_node.
Proof.
  apply (C4_fix_commits_corrected_node example_config busy_node_in_memory 0.3 20 7
           busy_world busy_node busy_store).
  - reflexivity.
  - vm_compute. eauto.
Defined.

(** C5, at a store whose [GetNode] times out. *)
Lemma C5_witness :
  doFixDiffResource example_config busy_node_in_memory 0.3 20 7 failing_world
  = (Some (errorString "etcd: request timed out"),
     mkWorld (heap failing_world) failing_store (trace failing_world ++ [EGetNode "n1"])).
Proof.
  apply (C5_fix_fetch_error_skips_update example_config busy_node_in_memory 0.3 20 7
           failing_world (errorString "etcd: request timed out") failing_store).
  reflexivity.
Defined.

(* ===================================================================== *)
(** ** Pod report                                                         *)
(* ===================================================================== *)

Section PodClaims.
Context {S : Type} `{!Backend S}.
Variable Round : float → float.
Variable config : Config.

(** The per-node operation hands back a report whenever it hands back no
    error. *)
Lemma doGetNodeResource_func_nil_error fix_ node (w w' : World S) nr :
  doGetNodeResource_func Round config fix_ node None w = ((nr, None), w') → is_Some nr.
Proof.
  destruct (ListNodeWorkloads (Node.Name node) (backend w)) as [[err|ws] s2] eqn:Hws.
  - unfold doGetNodeResource_func. run. by rewrite Hws.
  - destruct (doGetNodeResource_func_report Round config fix_ node None w ws s2 Hws)
      as (nr' & w2 & verr & -> & _).
    intros [= <- _]. by eexists.
Qed.

Lemma doGetNodeResource_report nodename fix_ (w w' : World S) nr :
  doGetNodeResource Round config nodename fix_ w = ((nr, None), w') → is_Some nr.
Proof.
  unfold doGetNodeResource, withNodeLocked. run.
  destruct (LockNode nodename (backend w)) as [[err|sn] s1]; simpl; [done|].
  match goal with
  | |- context [doGetNodeResource_func _ _ _ ?n None ?W] =>
      pose proof (doGetNodeResource_func_nil_error fix_ n W) as Hfunc;
      destruct (doGetNodeResource_func Round config fix_ n None W) as [[nr' e] w2]
  end.
  simpl. intros [= <- -> _]. by eapply Hfunc.
Qed.

Lemma PodResource_loop_cons logger node (nodes : list StoredNode) (r : PodResource.t)
    (w : World S) :
  PodResource_loop Round config logger (node :: nodes) r w
  = match doGetNodeResource Round config (Node.Name node) false w with
    | ((_, Some e), w1) =>
        ((None, Some e),
         mkWorld (heap w1) (backend w1) (trace w1 ++ [ELoggerErr logger (Some e)]))
    | ((nr, None), w1) =>
        PodResource_loop Round config logger nodes
          (PodResource.mk (PodResource.Name r) (PodResource.NodesResource r ++ [nr])) w1
    end.
Proof.
  cbn [PodResource_loop]. unfold bind at 1.
  by destruct (doGetNodeResource Round config (Node.Name node) false w) as [[? [?|]] ?].
Qed.

Lemma PodResource_loop_spec logger (nodes : list StoredNode) (r : PodResource.t)
    (w : World S) :
  (∃ nrs w',
      PodResource_loop Round config logger nodes r w
      = ((Some (PodResource.mk (PodResource.Name r) (PodResource.NodesResource r ++ nrs)),
          None), w')
      ∧ reports_in_order Round config nodes nrs w w'
      ∧ Forall is_Some nrs)
  ∨ (∃ done_ node rest nrs wa nr e wb,
        nodes = done_ ++ node :: rest
        ∧ reports_in_order Round config done_ nrs w wa
        ∧ doGetNodeResource Round config (Node.Name node) false wa = ((nr, Some e), wb)
        ∧ PodResource_loop Round config logger nodes r w
          = ((None, Some e),
             mkWorld (heap wb) (backend wb) (trace wb ++ [ELoggerErr logger (Some e)]))).
Proof.
  revert r w. induction nodes as [|node nodes IH]; intros r w.
  - left. exists [], w. rewrite app_nil_r. destruct r.
    split; [done|]. split; constructor.
  - rewrite PodResource_loop_cons.
    destruct (doGetNodeResource Round config (Node.Name node) false w)
      as [[nr [e|]] w1] eqn:Hrun.
    + right. exists [], node, nodes, [], w, nr, e, w1.
      split; [done|]. split; [constructor|]. by split.
    + destruct (IH (PodResource.mk (PodResource.Name r)
                      (PodResource.NodesResource r ++ [nr])) w1)
        as [(nrs & w' & Hloop & Hrep & Hall)
           |(done_ & node' & rest & nrs & wa & nr' & e & wb & -> & Hrep & Hfail & Hloop)].
      * left. exists (nr :: nrs), w'. rewrite Hloop. simpl.
        rewrite <- app_assoc. split; [done|]. split.
        -- by econstructor.
        -- constructor; [|done]. by eapply doGetNodeResource_report.
      * right. exists (node :: done_), node', rest, (nr :: nrs), wa, nr', e, wb.
        split; [done|]. split; [by econstructor|]. by split.
Qed.

(** C8.  [PodResource] lists the nodes of the pod and runs the per-node
    operation on them in order.  Either every run is without error, and the
    result is the pod's name with the reports in the order of the nodes, none
    of them [nil]; or some run is the first to fail, the runs before it were
    without error, no later node is visited, and the result is [nil] together
    with that error.  When the listing itself fails the result is [nil] with
    the listing's error. *)
Theorem C8_pod_resource_all_or_nothing (podname : string) (w : World S) :
  match ListPodNodes podname (backend w) with
  | (inl e, s1) =>
      PodResource Round config podname w
      = ((None, Some e),
         mkWorld (heap w) s1
           (trace w ++ [EListPodNodes podname;
                        ELoggerErr [("Calcium", "PodResource"); ("podname", podname)] (Some e)]))
  | (inr nodes, s1) =>
      let w1 := mkWorld (heap w) s1 (trace w ++ [EListPodNodes podname]) in
      (∃ nrs w',
          PodResource Round config podname w
          = ((Some (PodResource.mk podname nrs), None), w')
          ∧ reports_in_order Round config nodes nrs w1 w'
          ∧ Forall is_Some nrs)
      ∨ (∃ done_ node rest nrs wa nr e wb,
            nodes = done_ ++ node :: rest
            ∧ reports_in_order Round config done_ nrs w1 wa
            ∧ doGetNodeResource Round config (Node.Name node) false wa = ((nr, Some e), wb)
            ∧ PodResource Round config podname w
              = ((None, Some e),
                 mkWorld (heap wb) (backend wb)
                   (trace wb ++ [ELoggerErr [("Calcium", "PodResource"); ("podname", podname)] (Some e)])))
  end.
Proof.
  unfold PodResource. run.
  destruct (ListPodNodes podname (backend w)) as [[e|nodes] s1]; simpl.
  - by rewrite <- app_assoc.
  - apply (PodResource_loop_spec [("Calcium", "PodResource"); ("podname", podname)] nodes
             (PodResource.mk podname [])).
Qed.
End PodClaims.

(* ===================================================================== *)
(** ** Resource remapper                                                  *)
(* ===================================================================== *)

Section RemapClaims.
Context {S : Type} `{!Backend S}.
Variable config : Config.

(** Draining logs one entry per message, in order, and nothing else. *)
Lemma drain_all logger (ch : list VirtualizationRemapMessage.t) (w : World S) :
  drain logger ch w
  = (tt, mkWorld (heap w) (backend w)
           (trace w ++ (message_logged logger <$> ch))).
Proof.
  revert w. induction ch as [|msg ch IH]; intros w.
  - simpl. unfold ret. rewrite app_nil_r. by destruct w.
  - cbn [drain]. run. rewrite IH. simpl. by rewrite <- app_assoc.
Qed.

(** C9.  When the remap is accepted by the engine, [doRemapResourceAndLog]
    passes every message of the stream to the logger, in order, whether or
    not messages carry errors, and it has no result: nothing is surfaced to
    its caller. *)
Theorem C9_remap_drains_whole_stream
    (logger : Fields) (node : Node) (w : World S)
    (workloads : list Workload.t) s1 (ch : list VirtualizationRemapMessage.t) s2 :
  let remapOpts := remapOptions config node (deref (heap w) (Node.CPU node)) workloads in
  let logger' := logger ++ [("Calcium", "doRemapResourceAndLog");
                            ("nodename", Node.Name node)] in
  store_ListNodeWorkloads (Node.Name node) (backend w) = (inr workloads, s1) →
  Engine_VirtualizationResourceRemap (Node.Name node) remapOpts s1 = (inr ch, s2) →
  doRemapResourceAndLog config logger node w
  = (tt, mkWorld (heap w) s2
           (trace w
            ++ [ELogf "debug" "[doRemapResourceAndLog] remap node %s";
                EStoreListNodeWorkloads (Node.Name node);
                EResourceRemap (Node.Name node) remapOpts;
                ELoggerErr logger' None]
            ++ (message_logged logger' <$> ch))).
Proof.
  intros remapOpts logger' Hws Hremap.
  unfold doRemapResourceAndLog, remapResource. run.
  rewrite Hws. simpl. fold remapOpts. rewrite Hremap. simpl.
  rewrite drain_all. simpl. fold logger'.
  by rewrite <- !app_assoc.
Qed.
End RemapClaims.

(** C9, at a stream of three messages, the second one an error. *)
Lemma C9_witness :
  doRemapResourceAndLog example_config [] busy_node_in_memory remap_world
  = (tt, mkWorld (heap remap_world) remap_store
           (trace remap_world
            ++ [ELogf "debug" "[doRemapResourceAndLog] remap node %s";
                EStoreListNodeWorkloads "n1";
                EResourceRemap "n1"
                  (remapOptions example_config busy_node_in_memory
                     (deref (heap remap_world) (Node.CPU busy_node_in_memory))
                     busy_workloads);
                ELoggerErr [("Calcium", "doRemapResourceAndLog"); ("nodename", "n1")] None]
            ++ [ELoggerErr [("Calcium", "doRemapResourceAndLog"); ("nodename", "n1");
                            ("id", "w1")] None;
                ELoggerErr [("Calcium", "doRemapResourceAndLog"); ("nodename", "n1");
                            ("id", "w2")] (Some (errorString "cgroup busy"));
                ELoggerErr [("Calcium", "doRemapResourceAndLog"); ("nodename", "n1");
                            ("id", "w3")] None])).
Proof.
  apply (C9_remap_drains_whole_stream example_config [] busy_node_in_memory remap_world
           busy_workloads remap_store remap_messages remap_store); reflexivity.
Defined.

(* ===================================================================== *)
(** ** Allocation planner                                                 *)
(* ===================================================================== *)

Section PlannerClaims.
Context {S NodeMap DeployOptions StrategyInfos ResourcePlans : Type}.
Variable doCalculateCapacity :
  NodeMap → DeployOptions → S → (error + (Z * list ResourcePlans * StrategyInfos)) * S.
Variable store_MakeDeployStatus : DeployOptions → StrategyInfos → S → option error * S.
Variable strategy_Deploy :
  DeployOptions → StrategyInfos → Z → S → (error + gmap string Z) * S.

Abbreviation alloc_run nodeMap opts s tr :=
  (doAllocResource doCalculateCapacity store_MakeDeployStatus strategy_Deploy
     nodeMap opts (s, tr)).

(** C6.  In the calls made by [doAllocResource], a call of the placement
    strategy is for the request at hand and comes after a call of
    [MakeDeployStatus] for the same request and strategy infos; and when
    [MakeDeployStatus] returns an error, the result is no plans, no
    distribution and that error wrapped, and the strategy is not called. *)
Theorem C6_staging_precedes_placement (nodeMap : NodeMap) (opts : DeployOptions)
    (s : S) (tr : list (AllocEvent NodeMap DeployOptions StrategyInfos)) :
  ∃ evs,
    (alloc_run nodeMap opts s tr).2.2 = tr ++ evs
    ∧ (∀ before o i t after,
          evs = before ++ EStrategyDeploy o i t :: after →
          o = opts ∧ EMakeDeployStatus opts i ∈ before)
    ∧ (∀ total plans infos s1 e s2,
          doCalculateCapacity nodeMap opts s = (inr (total, plans, infos), s1) →
          store_MakeDeployStatus opts infos s1 = (Some e, s2) →
          (alloc_run nodeMap opts s tr).1 = (None, None, Some (withStack e))
          ∧ ∀ o i t, EStrategyDeploy o i t ∉ evs).
Proof.
  unfold doAllocResource, acall, bind, ret. simpl.
  destruct (doCalculateCapacity nodeMap opts s) as [[e|[[total plans] infos]] s1]; simpl.
  - exists [ECalculateCapacity nodeMap opts]. split; [done|]. split.
    + intros [|? [|? ?]] o i t after Heq; simpl in Heq; simplify_eq.
    + intros; simplify_eq.
  - destruct (store_MakeDeployStatus opts infos s1) as [[e|] s2] eqn:Hstage; simpl.
    + exists [ECalculateCapacity nodeMap opts; EMakeDeployStatus opts infos].
      split; [by rewrite <- app_assoc|]. split.
      * intros [|? [|? [|? ?]]] o i t after Heq; simpl in Heq; simplify_eq.
      * intros ? ? ? ? ? ? [= <- <- <- <-]. rewrite Hstage. intros [= <- <-].
        split; [done|]. intros o i t Hin.
        repeat (apply elem_of_cons in Hin as [Hin|Hin]; [discriminate|]).
        by apply elem_of_nil in Hin.
    + destruct (strategy_Deploy opts infos total s2) as [[e|deployMap] s3]; simpl.
      * exists [ECalculateCapacity nodeMap opts; EMakeDeployStatus opts infos;
                EStrategyDeploy opts infos total].
        split; [by rewrite <- !app_assoc|]. split.
        -- intros [|? [|? [|? [|? ?]]]] o i t after Heq; simpl in Heq; simplify_eq.
           split; [done|]. set_solver.
        -- intros ? ? ? ? ? ? [= <- <- <- <-]. rewrite Hstage. intros [=].
      * exists [ECalculateCapacity nodeMap opts; EMakeDeployStatus opts infos;
                EStrategyDeploy opts infos total;
                EAllocLogf "info" "[Calium.doAllocResource] deployMap: %+v"].
        split; [by rewrite <- !app_assoc|]. split.
        -- intros [|? [|? [|? [|? [|? ?]]]]] o i t after Heq; simpl in Heq; simplify_eq.
           split; [done|]. set_solver.
        -- intros ? ? ? ? ? ? [= <- <- <- <-]. rewrite Hstage. intros [=].
Qed.
End PlannerClaims.

(** C6, at a store whose [MakeDeployStatus] times out. *)
Lemma C6_witness :
  (doAllocResource example_capacity failing_MakeDeployStatus example_Deploy
     "nodes" "request" (tt, [])).1
  = (None, None, Some (withStack (errorString "etcd: request timed out")))
  ∧ ∀ o i t,
      EStrategyDeploy o i t
      ∉ (doAllocResource example_capacity failing_MakeDeployStatus example_Deploy
           "nodes" "request" (tt, [])).2.2.
Proof.
  destruct (C6_staging_precedes_placement example_capacity failing_MakeDeployStatus
              example_Deploy "nodes" "request" tt [])
    as (evs & Htrace & _ & Hfail).
  rewrite Htrace.
  apply (Hfail 3%Z ["plan"] "infos" tt (errorString "etcd: request timed out") tt);
    reflexivity.
Defined.

(* ===================================================================== *)
(** ** Unit builder                                                       *)
(* ===================================================================== *)

Module SystemdFacts.
Import Systemd.

Section BuilderClaims.
Variable json_Marshal : string → gmap string string → error + string.
Variable Sprintf_d : Z → string.
Variable Sprintf_2f : float → string.

Lemma run_step_failed (s : step) (b : unitBuilder) :
  is_Some (err b) → run_step json_Marshal Sprintf_d Sprintf_2f s b = b.
Proof.
  intros [e He].
  destruct s; simpl;
    unfold buildUnit, buildPreExec, buildCPULimit, buildMemoryLimit, buildExec,
           buildPostExec; by rewrite He.
Qed.

(** C10.  Once the builder holds an error, every build step hands the
    builder back as it is (both buffers and the error included), so does any
    chain of steps, and [buffer] then returns that error. *)
Theorem C10_error_latches (b : unitBuilder) (e : error) (ss : list step) :
  err b = Some e →
  (∀ s, run_step json_Marshal Sprintf_d Sprintf_2f s b = b)
  ∧ run_steps json_Marshal Sprintf_d Sprintf_2f ss b = b
  ∧ (buffer (run_steps json_Marshal Sprintf_d Sprintf_2f ss b)).2 = Some e.
Proof.
  intros He.
  assert (∀ s, run_step json_Marshal Sprintf_d Sprintf_2f s b = b) as Hstep.
  { intros s. apply run_step_failed. by rewrite He. }
  assert (run_steps json_Marshal Sprintf_d Sprintf_2f ss b = b) as Hsteps.
  { unfold run_steps. induction ss as [|s ss IH]; simpl; [done|]. by rewrite Hstep. }
  repeat split; [done..|]. by rewrite Hsteps.
Qed.
End BuilderClaims.
End SystemdFacts.

(** C10, at a builder on which [buildExec] has refused the log type. *)
Lemma C10_witness :
  (∀ s, Systemd.run_step example_json example_d example_2f s failed_builder
        = failed_builder)
  ∧ Systemd.run_steps example_json example_d example_2f
      [Systemd.StepUnit; Systemd.StepPreExec; Systemd.StepExec; Systemd.StepPostExec]
      failed_builder = failed_builder
  ∧ (Systemd.buffer
       (Systemd.run_steps example_json example_d example_2f
          [Systemd.StepUnit; Systemd.StepPreExec; Systemd.StepExec; Systemd.StepPostExec]
          failed_builder)).2
    = Some (errorString "log type not supported: syslog").
Proof.
  apply (SystemdFacts.C10_error_latches example_json example_d example_2f
           failed_builder (errorString "log type not supported: syslog")).
  reflexivity.
Defined.

(* ===================================================================== *)
(** ** Further properties: the node report                                *)
(* ===================================================================== *)

Lemma int64_wrap_shift z k : int64_wrap (z + k * 2 ^ 64) = int64_wrap z.
Proof.
  unfold int64_wrap. f_equal.
  replace (z + k * 2 ^ 64 + 2 ^ 63)%Z with (z + 2 ^ 63 + k * 2 ^ 64)%Z by lia.
  apply Z_mod_plus_full.
Qed.

Lemma int64_wrap_decomp z : ∃ k, int64_wrap z = (z + k * 2 ^ 64)%Z.
Proof.
  exists (- ((z + 2 ^ 63) `div` 2 ^ 64))%Z. unfold int64_wrap.
  pose proof (Z_div_mod_eq_full (z + 2 ^ 63) (2 ^ 64)). lia.
Qed.

Lemma int64_wrap_sub_r a b : int64_wrap (a - int64_wrap b) = int64_wrap (a - b).
Proof.
  destruct (int64_wrap_decomp b) as [k ->].
  replace (a - (b + k * 2 ^ 64))%Z with (a - b + (- k) * 2 ^ 64)%Z by lia.
  apply int64_wrap_shift.
Qed.

Lemma int64_wrap_sub_l a b : int64_wrap (int64_wrap a - b) = int64_wrap (a - b).
Proof.
  destruct (int64_wrap_decomp a) as [k ->].
  replace (a + k * 2 ^ 64 - b)%Z with (a - b + k * 2 ^ 64)%Z by lia.
  apply int64_wrap_shift.
Qed.

(** Adding what the corrector adds brings a recorded amount back to the
    initial amount less what is consumed. *)
Lemma int64_correction (init used cap : Z) :
  is_int64 init →
  int64_add used (int64_add cap (int64_sub init (int64_add used cap))) = init.
Proof.
  intros Hinit. unfold int64_add, int64_sub.
  rewrite int64_wrap_add_r, int64_wrap_sub_r.
  rewrite Z.add_assoc, int64_wrap_add_r.
  replace (used + cap + (init - (used + cap)))%Z with init by lia.
  by apply int64_wrap_id.
Qed.

Section ReporterExtras.
Context {S : Type} `{!Backend S}.
Variable Round : float → float.
Variable config : Config.

(** X1. When the workloads cannot be listed, the per-node operation hands back
    the store's error and no report; it has called the lock, the listing and
    the unlock, and neither the engine nor the corrector. *)
Theorem doGetNodeResource_list_error nodename fix_ (w : World S) sn s0 err s1 :
  LockNode nodename (backend w) = (inr sn, s0) →
  ListNodeWorkloads (Node.Name sn) s0 = (inl err, s1) →
  ∃ w',
    doGetNodeResource Round config nodename fix_ w = ((None, Some err), w')
    ∧ trace w' = trace w ++ [ELockNode nodename; EListNodeWorkloads (Node.Name sn);
                              EUnlockNode nodename]
    ∧ backend w' = UnlockNode nodename s1.
Proof.
  intros Hlock Hws.
  unfold doGetNodeResource, withNodeLocked, doGetNodeResource_func. run.
  rewrite Hlock. simpl. rewrite Hws. simpl.
  eexists. split; [reflexivity|]. simpl. by rewrite <- !app_assoc.
Qed.

(** X2. The report does not depend on the [fix] flag, and neither a validation
    finding nor a failed correction makes the computation fail. *)
Theorem report_independent_of_fix (node : Node) nr0 (w : World S) ws s1 :
  ListNodeWorkloads (Node.Name node) (backend w) = (inr ws, s1) →
  ∃ nr,
    (doGetNodeResource_func Round config true node nr0 w).1 = (Some nr, None)
    ∧ (doGetNodeResource_func Round config false node nr0 w).1 = (Some nr, None).
Proof.
  intros Hws. unfold doGetNodeResource_func. run. rewrite Hws. simpl.
  destruct (Engine_ResourceValidate _ _ _ _ _ s1) as [verr s2].
  match goal with
  | |- context [doFixDiffResource ?c ?n ?a ?b ?d ?W] =>
      destruct (doFixDiffResource c n a b d W) as [[e|] w2]
  end; eexists; split; reflexivity.
Qed.

(** X3. Without [fix] the computation calls the store and the engine twice: it
    lists the workloads and has the engine validate the aggregated figures.
    The corrector is not run. *)
Theorem report_without_fix_calls (node : Node) nr0 (w : World S) ws s1 :
  ListNodeWorkloads (Node.Name node) (backend w) = (inr ws, s1) →
  let u := aggregate Round ws in
  let w' := (doGetNodeResource_func Round config false node nr0 w).2 in
  trace w' = trace w ++ [EListNodeWorkloads (Node.Name node);
                         EResourceValidate (Node.Name node) (cpus u) (cpumap u)
                           (memory u) (storage u)]
  ∧ backend w'
    = (Engine_ResourceValidate (Node.Name node) (cpus u) (cpumap u) (memory u)
         (storage u) s1).2.
Proof.
  intros Hws u w'. subst w'. unfold doGetNodeResource_func. run. rewrite Hws. simpl.
  fold u. destruct (Engine_ResourceValidate _ _ _ _ _ s1) as [verr s2]. simpl.
  by rewrite <- app_assoc.
Qed.

(** The report of a successful computation, with the validation finding it
    carries. *)
Lemma doGetNodeResource_func_diffs fix_ node nr0 (w : World S) ws s1 :
  ListNodeWorkloads (Node.Name node) (backend w) = (inr ws, s1) →
  let u := aggregate Round ws in
  let merged := CPUMap_Add (deref (heap w) (Node.CPU node)) (cpumap u) in
  ∃ nr w',
    doGetNodeResource_func Round config fix_ node nr0 w = ((Some nr, None), w')
    ∧ NodeResource.Diffs nr
      = cpuused_diffs node (cpus u) ++ cpu_diffs (Node.InitCPU node) merged
        ++ memory_diffs node (memory u) ++ storage_diffs node (storage u)
        ++ validate_diffs
             (Engine_ResourceValidate (Node.Name node) (cpus u) (cpumap u) (memory u)
                (storage u) s1).1.
Proof.
  intros Hws u merged.
  unfold doGetNodeResource_func. run. rewrite Hws. simpl. fold u.
  destruct (Engine_ResourceValidate (Node.Name node) (cpus u) (cpumap u) (memory u)
              (storage u) s1) as [verr s2] eqn:Hv.
  rewrite deref_insert_eq. fold merged.
  destruct fix_.
  - match goal with
    | |- context [doFixDiffResource ?c ?n ?a ?b ?d ?W] =>
        destruct (doFixDiffResource c n a b d W) as [[e|] w2]
    end; eexists _, _; (split; [reflexivity|]); simpl; by rewrite <- !app_assoc.
  - eexists _, _. split; [reflexivity|]. simpl. by rewrite <- !app_assoc.
Qed.

Lemma Diff_in_singleton (d d' : Diff) : d ∈ [d'] ↔ d = d'.
Proof. rewrite elem_of_cons, elem_of_nil. tauto. Qed.

(** Each check appends entries of its own kind only, so an entry of the
    report comes from the check of its kind. *)
Lemma elem_of_report_diffs (node : Node) (u : Usage) (merged : CPUMap) verr (d : Diff) :
  d ∈ cpuused_diffs node (cpus u) ++ cpu_diffs (Node.InitCPU node) merged
       ++ memory_diffs node (memory u) ++ storage_diffs node (storage u)
       ++ validate_diffs verr
  ↔ match d with
    | DiffCPUUsed _ _ => d ∈ cpuused_diffs node (cpus u)
    | DiffCPU _ _ => d ∈ cpu_diffs (Node.InitCPU node) merged
    | DiffMemory _ _ => d ∈ memory_diffs node (memory u)
    | DiffStorage _ _ => d ∈ storage_diffs node (storage u)
    | DiffValidate _ => d ∈ validate_diffs verr
    end.
Proof.
  assert (∀ d, d ∈ cpuused_diffs node (cpus u) → ∃ a b, d = DiffCPUUsed a b) as H1.
  { intros d'. unfold cpuused_diffs. case_match; rewrite ?Diff_in_singleton, ?elem_of_nil;
      [intros ->; by eexists _, _ | done]. }
  assert (∀ d, d ∈ cpu_diffs (Node.InitCPU node) merged → ∃ i x, d = DiffCPU i x) as H2.
  { intros d' Hin. unfold cpu_diffs in Hin.
    apply list_elem_of_omap in Hin as ([j v] & _ & Hf).
    simpl in Hf. case_bool_decide; [|done]. injection Hf as <-. by eexists _, _. }
  assert (∀ d, d ∈ memory_diffs node (memory u) → ∃ a b, d = DiffMemory a b) as H3.
  { intros d'. unfold memory_diffs.
    case_bool_decide; rewrite ?Diff_in_singleton, ?elem_of_nil;
      [intros ->; by eexists _, _ | done]. }
  assert (∀ d, d ∈ storage_diffs node (storage u) → ∃ a b, d = DiffStorage a b) as H4.
  { intros d'. unfold storage_diffs.
    repeat case_bool_decide; rewrite ?Diff_in_singleton, ?elem_of_nil;
      try done; intros ->; by eexists _, _. }
  assert (∀ d, d ∈ validate_diffs verr → ∃ e, d = DiffValidate e) as H5.
  { intros d'. unfold validate_diffs.
    destruct verr; rewrite ?Diff_in_singleton, ?elem_of_nil; [intros ->; by eexists | done]. }
  rewrite !elem_of_app. split.
  - intros [H|[H|[H|[H|H]]]];
      [ destruct (H1 _ H) as (? & ? & ->) | destruct (H2 _ H) as (? & ? & ->)
      | destruct (H3 _ H) as (? & ? & ->) | destruct (H4 _ H) as (? & ? & ->)
      | destruct (H5 _ H) as (? & ->) ]; done.
  - destruct d; tauto.
Qed.

(** X4. The CPU-usage, memory, storage and validation entries of the report: each
    is present exactly when its check fires, and carries the values of the
    check. *)
Theorem report_scalar_diffs (fix_ : bool) (node : Node) nr0 (w : World S) ws s1 :
  ListNodeWorkloads (Node.Name node) (backend w) = (inr ws, s1) →
  let u := aggregate Round ws in
  ∃ nr w',
    doGetNodeResource_func Round config fix_ node nr0 w = ((Some nr, None), w')
    ∧ (∀ a b, DiffCPUUsed a b ∈ NodeResource.Diffs nr
              ↔ float_neb (cpus u) (Node.CPUUsed node) = true
                ∧ a = Node.CPUUsed node ∧ b = cpus u)
    ∧ (∀ c d, DiffMemory c d ∈ NodeResource.Diffs nr
              ↔ int64_add (memory u) (Node.MemCap node) ≠ Node.InitMemCap node
                ∧ c = Node.MemCap node
                ∧ d = int64_sub (Node.InitMemCap node)
                        (int64_add (memory u) (Node.MemCap node)))
    ∧ (∀ c d, DiffStorage c d ∈ NodeResource.Diffs nr
              ↔ Node.InitStorageCap node ≠ 0%Z
                ∧ int64_add (storage u) (Node.StorageCap node) ≠ Node.InitStorageCap node
                ∧ c = Node.StorageCap node
                ∧ d = int64_sub (Node.InitStorageCap node)
                        (int64_add (storage u) (Node.StorageCap node)))
    ∧ (∀ e, DiffValidate e ∈ NodeResource.Diffs nr
            ↔ (Engine_ResourceValidate (Node.Name node) (cpus u) (cpumap u) (memory u)
                 (storage u) s1).1 = Some e).
Proof.
  intros Hws u.
  destruct (doGetNodeResource_func_diffs fix_ node nr0 w ws s1 Hws) as (nr & w' & Hrun & Hd).
  fold u in Hd. exists nr, w'. split; [done|]. rewrite Hd. clear Hd Hrun.
  split; [|split; [|split]]; intros; rewrite elem_of_report_diffs.
  - unfold cpuused_diffs. case_match; rewrite ?Diff_in_singleton, ?elem_of_nil;
      split; try done; [intros [= -> ->]; done | intros (_ & -> & ->); done | intros (? & _); done].
  - unfold memory_diffs. case_bool_decide; rewrite ?Diff_in_singleton, ?elem_of_nil;
      split; try done; [intros [= -> ->]; done | intros (_ & -> & ->); done | intros (? & _); done].
  - unfold storage_diffs. repeat case_bool_decide; rewrite ?Diff_in_singleton, ?elem_of_nil;
      split; try done; try (intros [= -> ->]; done); try (intros (_ & _ & -> & ->); done);
      intros (? & ? & _); done.
  - unfold validate_diffs.
    destruct (Engine_ResourceValidate _ _ _ _ _ s1).1;
      rewrite ?Diff_in_singleton, ?elem_of_nil; split; try done; intros [= ->]; done.
Qed.

(** X5. A per-core entry of the report carries what the core lacks: [InitCPU[i]]
    less the merged share of core [i]. *)
Theorem report_core_diff_value (fix_ : bool) (node : Node) nr0 (w : World S) ws s1 :
  ListNodeWorkloads (Node.Name node) (backend w) = (inr ws, s1) →
  let merged := CPUMap_Add (deref (heap w) (Node.CPU node))
                  (foldl CPUMap_Add ∅ (Workload.CPU <$> ws)) in
  ∃ nr w',
    doGetNodeResource_func Round config fix_ node nr0 w = ((Some nr, None), w')
    ∧ ∀ i d, DiffCPU i d ∈ NodeResource.Diffs nr →
             d = int64_sub (get (Node.InitCPU node) i) (get merged i).
Proof.
  intros Hws merged.
  destruct (doGetNodeResource_func_diffs fix_ node nr0 w ws s1 Hws) as (nr & w' & Hrun & Hd).
  exists nr, w'. split; [done|]. intros i d Hin. rewrite Hd in Hin.
  apply elem_of_report_diffs, elem_of_cpu_diffs in Hin as (v & Hv & _ & ->).
  unfold aggregate in Hv. rewrite aggregate_from_cpumap in Hv. simpl in Hv.
  fold merged in Hv. f_equal. unfold get. by rewrite Hv.
Qed.

Lemma cpu_diffs_nil (InitCPU merged : CPUMap) :
  (∀ i v, merged !! i = Some v → get InitCPU i = v) → cpu_diffs InitCPU merged = [].
Proof.
  intros Hall. destruct (cpu_diffs InitCPU merged) as [|d l] eqn:E; [done|].
  assert (d ∈ cpu_diffs InitCPU merged) as Hin by (rewrite E; apply list_elem_of_here).
  unfold cpu_diffs in Hin. apply list_elem_of_omap in Hin as ([j v] & Hjv & Hf).
  apply elem_of_map_to_list in Hjv. simpl in Hf.
  rewrite bool_decide_eq_false_2 in Hf; [done|]. intros Hne. by apply Hne, Hall.
Qed.

(** What the corrector hands to [UpdateNodes] when its re-fetch succeeds. *)
Lemma doFixDiffResource_commit (node : Node) (c : float) (m s : Z) (w : World S)
    (fetched : StoredNode) s1 :
  GetNode (Node.Name node) (backend w) = (inr fetched, s1) →
  is_Some (heap w !! Node.CPU node) →
  let n : StoredNode :=
    Node.mk (Node.Name fetched)
      (foldl (fix_core (Node.InitCPU node)) (Node.CPU fetched)
         (map_to_list (deref (heap w) (Node.CPU node))))
      (Node.InitCPU fetched) c
      (int64_add (Node.MemCap fetched)
         (int64_sub (Node.InitMemCap node) (int64_add m (Node.MemCap node))))
      (Node.InitMemCap fetched)
      (int64_add (Node.StorageCap fetched)
         (int64_sub (Node.InitStorageCap node) (int64_add s (Node.StorageCap node))))
      (Node.InitStorageCap fetched) (Node.VolumeUsed fetched) (Node.InitVolume fetched)
      (Node.NUMAMemory fetched) (Node.InitNUMAMemory fetched) in
  trace (doFixDiffResource config node c m s w).2
  = trace w ++ [EGetNode (Node.Name node); EUpdateNodes (Some n)].
Proof.
  intros Hget Hl n.
  assert (fresh (dom (heap w)) ≠ Node.CPU node) as Hne.
  { intros Heq. apply elem_of_dom in Hl. rewrite <- Heq in Hl. by apply is_fresh in Hl. }
  unfold doFixDiffResource, Txn, doFixDiffResource_cond, doFixDiffResource_then.
  run. rewrite Hget. simpl.
  rewrite !deref_insert_eq, deref_insert_ne by done.
  match goal with
  | |- context [store_UpdateNodes ?x s1] => destruct (store_UpdateNodes x s1) as [uerr s2]
  end.
  simpl. by rewrite <- app_assoc.
Qed.

(** X6. The node the corrector commits shows no drift against the workloads it
    was corrected for: when the re-fetch hands back the node as the lock
    holder read it, the committed node has [CPUUsed = cpus], and the per-core,
    memory and storage checks of a further report over the same workloads
    would all pass. *)
Theorem fix_commits_drift_free_node (node : Node) nr0 (w : World S) ws s1 verr s2 s3 :
  let u := aggregate Round ws in
  let nodeCPU := deref (heap w) (Node.CPU node) in
  ListNodeWorkloads (Node.Name node) (backend w) = (inr ws, s1) →
  Engine_ResourceValidate (Node.Name node) (cpus u) (cpumap u) (memory u) (storage u) s1
  = (verr, s2) →
  GetNode (Node.Name node) s2 = (inr (Node.set_CPU node nodeCPU), s3) →
  is_Some (heap w !! Node.CPU node) →
  int64_map (Node.InitCPU node) →
  is_int64 (Node.InitMemCap node) → is_int64 (Node.InitStorageCap node) →
  ∃ n : StoredNode,
    EUpdateNodes (Some n) ∈ trace (doGetNodeResource_func Round config true node nr0 w).2
    ∧ Node.CPUUsed n = cpus u
    ∧ cpu_diffs (Node.InitCPU n) (CPUMap_Add (Node.CPU n) (cpumap u)) = []
    ∧ int64_add (memory u) (Node.MemCap n) = Node.InitMemCap n
    ∧ int64_add (storage u) (Node.StorageCap n) = Node.InitStorageCap n.
Proof.
  intros u nodeCPU Hws Hv Hget Hl Hinit Hmem Hsto.
  set (merged := CPUMap_Add nodeCPU (cpumap u)).
  set (W1 := mkWorld (<[Node.CPU node := merged]> (heap w)) s2
               ((trace w ++ [EListNodeWorkloads (Node.Name node)]) ++
                [EResourceValidate (Node.Name node) (cpus u) (cpumap u) (memory u)
                   (storage u)])).
  assert (is_Some (heap W1 !! Node.CPU node)) as Hl1.
  { subst W1; simpl. rewrite lookup_insert_eq. by eexists. }
  pose proof (doFixDiffResource_commit node (cpus u) (memory u) (storage u) W1
                (Node.set_CPU node nodeCPU) s3 Hget Hl1) as Hcommit.
  cbv zeta in Hcommit. unfold W1 in Hcommit at 2 3. simpl in Hcommit.
  rewrite deref_insert_eq in Hcommit.
  match type of Hcommit with
  | _ = _ ++ [_; EUpdateNodes (Some ?n)] => exists n
  end.
  split; [|split; [done|split; [|split]]]; simpl.
  - unfold doGetNodeResource_func. run. rewrite Hws. simpl. fold u. rewrite Hv. simpl.
    fold nodeCPU merged W1.
    destruct (doFixDiffResource config node (cpus u) (memory u) (storage u) W1)
      as [[e|] w2]; simpl in *; rewrite ?Hcommit; set_solver.
  - apply cpu_diffs_nil. intros i v. rewrite lookup_CPUMap_Add, fix_core_map.
    unfold merged. rewrite lookup_CPUMap_Add.
    pose proof (get_int64 (Node.InitCPU node) i Hinit) as Hi.
    set (I := get (Node.InitCPU node) i) in *. unfold get.
    destruct (nodeCPU !! i) as [a|], (cpumap u !! i) as [b|]; simpl; intros [= <-].
    + unfold int64_add, int64_sub. rewrite int64_wrap_add_l.
      replace (a + int64_wrap (I - int64_wrap (a + b)) + b)%Z
        with (a + b + int64_wrap (I - int64_wrap (a + b)))%Z by lia.
      rewrite int64_wrap_add_r.
      replace (a + b + (I - int64_wrap (a + b)))%Z
        with (a + b + I - int64_wrap (a + b))%Z by lia.
      rewrite int64_wrap_sub_r.
      replace (a + b + I - (a + b))%Z with I by lia.
      by rewrite int64_wrap_id.
    + unfold int64_add, int64_sub. rewrite int64_wrap_add_r.
      replace (a + (I - a))%Z with I by lia.
      by rewrite int64_wrap_id.
    + unfold int64_add, int64_sub.
      rewrite int64_wrap_add_l, Z.add_0_l, int64_wrap_add_l.
      replace (I - b + b)%Z with I by lia.
      by rewrite int64_wrap_id.
  - by apply int64_correction.
  - by apply int64_correction.
Qed.
End ReporterExtras.

(** X1, at a concrete input. *)
Lemma doGetNodeResource_list_error_witness :
  ∃ w',
    @doGetNodeResource Mock.t listing_fails (utils_Round 100) example_config "n1" true
      (Mock.world busy_store)
    = ((None, Some (errorString "etcd: request timed out")), w')
    ∧ trace w' = [ELockNode "n1"; EListNodeWorkloads "n1"; EUnlockNode "n1"]
    ∧ backend w' = busy_store.
Proof.
  apply (@doGetNodeResource_list_error Mock.t listing_fails (utils_Round 100)
           example_config "n1" true (Mock.world busy_store) busy_node busy_store
           (errorString "etcd: request timed out") busy_store); reflexivity.
Defined.

(** X2, at a concrete input. *)
Lemma report_independent_of_fix_witness :
  ∃ nr,
    (doGetNodeResource_func (utils_Round 100) example_config true busy_node_in_memory
       None busy_world).1 = (Some nr, None)
    ∧ (doGetNodeResource_func (utils_Round 100) example_config false busy_node_in_memory
         None busy_world).1 = (Some nr, None).
Proof.
  apply (report_independent_of_fix (utils_Round 100) example_config busy_node_in_memory
           None busy_world busy_workloads busy_store).
  reflexivity.
Defined.

(** X3, at a concrete input. *)
Lemma report_without_fix_calls_witness :
  trace (doGetNodeResource_func (utils_Round 100) example_config false
           busy_node_in_memory None busy_world).2
  = trace busy_world
    ++ [EListNodeWorkloads "n1";
        EResourceValidate "n1" (cpus (aggregate (utils_Round 100) busy_workloads))
          (cpumap (aggregate (utils_Round 100) busy_workloads))
          (memory (aggregate (utils_Round 100) busy_workloads))
          (storage (aggregate (utils_Round 100) busy_workloads))]
  ∧ backend (doGetNodeResource_func (utils_Round 100) example_config false
               busy_node_in_memory None busy_world).2
    = busy_store.
Proof.
  exact (report_without_fix_calls (utils_Round 100) example_config busy_node_in_memory
           None busy_world busy_workloads busy_store eq_refl).
Defined.

(** X4, at a concrete input. *)
Lemma report_scalar_diffs_witness :
  ∃ nr w',
    doGetNodeResource_func (utils_Round 100) example_config false busy_node_in_memory
      None busy_world = ((Some nr, None), w')
    ∧ (∀ a b, DiffCPUUsed a b ∈ NodeResource.Diffs nr
              ↔ float_neb (cpus (aggregate (utils_Round 100) busy_workloads))
                  (Node.CPUUsed busy_node_in_memory) = true
                ∧ a = Node.CPUUsed busy_node_in_memory
                ∧ b = cpus (aggregate (utils_Round 100) busy_workloads))
    ∧ (∀ c d, DiffMemory c d ∈ NodeResource.Diffs nr
              ↔ int64_add (memory (aggregate (utils_Round 100) busy_workloads))
                  (Node.MemCap busy_node_in_memory)
                ≠ Node.InitMemCap busy_node_in_memory
                ∧ c = Node.MemCap busy_node_in_memory
                ∧ d = int64_sub (Node.InitMemCap busy_node_in_memory)
                        (int64_add (memory (aggregate (utils_Round 100) busy_workloads))
                           (Node.MemCap busy_node_in_memory)))
    ∧ (∀ c d, DiffStorage c d ∈ NodeResource.Diffs nr
              ↔ Node.InitStorageCap busy_node_in_memory ≠ 0%Z
                ∧ int64_add (storage (aggregate (utils_Round 100) busy_workloads))
                    (Node.StorageCap busy_node_in_memory)
                  ≠ Node.InitStorageCap busy_node_in_memory
                ∧ c = Node.StorageCap busy_node_in_memory
                ∧ d = int64_sub (Node.InitStorageCap busy_node_in_memory)
                        (int64_add (storage (aggregate (utils_Round 100) busy_workloads))
                           (Node.StorageCap busy_node_in_memory)))
    ∧ (∀ e, DiffValidate e ∈ NodeResource.Diffs nr ↔ None = Some e).
Proof.
  exact (report_scalar_diffs (utils_Round 100) example_config false busy_node_in_memory
           None busy_world busy_workloads busy_store eq_refl).
Defined.

(** X5, at a concrete input. *)
Lemma report_core_diff_value_witness :
  ∃ nr w',
    doGetNodeResource_func (utils_Round 100) example_config false busy_node_in_memory
      None busy_world = ((Some nr, None), w')
    ∧ ∀ i d, DiffCPU i d ∈ NodeResource.Diffs nr →
             d = int64_sub (get (Node.InitCPU busy_node_in_memory) i)
                   (get (CPUMap_Add (deref (heap busy_world) (Node.CPU busy_node_in_memory))
                           (foldl CPUMap_Add ∅ (Workload.CPU <$> busy_workloads))) i).
Proof.
  exact (report_core_diff_value (utils_Round 100) example_config false busy_node_in_memory
           None busy_world busy_workloads busy_store eq_refl).
Defined.

(** X6, at a concrete input. *)
Lemma fix_commits_drift_free_node_witness :
  ∃ n : StoredNode,
    EUpdateNodes (Some n)
      ∈ trace (doGetNodeResource_func (utils_Round 100) example_config true
                 busy_node_in_memory None busy_world).2
    ∧ Node.CPUUsed n = cpus (aggregate (utils_Round 100) busy_workloads)
    ∧ cpu_diffs (Node.InitCPU n)
        (CPUMap_Add (Node.CPU n) (cpumap (aggregate (utils_Round 100) busy_workloads)))
      = []
    ∧ int64_add (memory (aggregate (utils_Round 100) busy_workloads)) (Node.MemCap n)
      = Node.InitMemCap n
    ∧ int64_add (storage (aggregate (utils_Round 100) busy_workloads)) (Node.StorageCap n)
      = Node.InitStorageCap n.
Proof.
  apply (fix_commits_drift_free_node (utils_Round 100) example_config busy_node_in_memory
           None busy_world busy_workloads busy_store None busy_store busy_store).
  - reflexivity.
  - reflexivity.
  - reflexivity.
  - vm_compute. eauto.
  - change (int64_map {[ "0" := 100%Z ]}). apply map_Forall_singleton. unfold is_int64. lia.
  - change (is_int64 1000). unfold is_int64. lia.
  - change (is_int64 0). unfold is_int64. lia.
Defined.

(* ===================================================================== *)
(** ** Further properties: [NodeResource] and [PodResource]               *)
(* ===================================================================== *)

Section NodeReportExtras.
Context {S : Type} `{!Backend S}.
Variable Round : float → float.
Variable config : Config.
Variable ErrEmptyNodeName : error.
Variable workload_Inspect : Workload.t → S → option error * S.

(** X7. A blank node name is refused before anything is asked of the store, the
    lock or the engine: only the logger is called. *)
Theorem NodeResource_empty_name fix_ (w : World S) :
  ∃ logger,
    NodeResource Round config ErrEmptyNodeName workload_Inspect "" fix_ w
    = ((None, [], Some ErrEmptyNodeName),
       mkWorld (heap w) (backend w)
         (trace w ++ [ELoggerErr logger (Some ErrEmptyNodeName)])).
Proof. eexists. unfold NodeResource. simpl. run. reflexivity. Qed.

(** The probe never drops an entry it was given, appends entries only for
    workloads of the list, in the order of the list, and touches neither the
    heap nor the trace. *)
Lemma NodeResource_probe_spec (ws : list Workload.t) (diffs : list InspectDiff)
    (w : World S) :
  ∃ failed w',
    NodeResource_probe workload_Inspect ws diffs w
    = (diffs ++ ((λ we : Workload.t * error, DiffInspect (Workload.ID we.1) we.2) <$> failed),
       w')
    ∧ sublist failed.*1 ws
    ∧ heap w' = heap w ∧ trace w' = trace w.
Proof.
  revert diffs w. induction ws as [|wl ws IH]; intros diffs w.
  - exists [], w. simpl. rewrite app_nil_r. repeat split; constructor.
  - cbn [NodeResource_probe]. unfold bind, inspect.
    destruct (workload_Inspect wl (backend w)) as [[e|] s1].
    + destruct (IH (diffs ++ [DiffInspect (Workload.ID wl) e])
                  (mkWorld (heap w) s1 (trace w))) as (failed & w' & -> & Hsub & Hh & Ht).
      exists ((wl, e) :: failed), w'. simpl. rewrite <- app_assoc.
      repeat split; try done. by constructor.
    + destruct (IH diffs (mkWorld (heap w) s1 (trace w)))
        as (failed & w' & -> & Hsub & Hh & Ht).
      exists failed, w'. repeat split; try done. by constructor.
Qed.

(** X8. A failed liveness probe never fails the call: for a non-blank name,
    when the per-node operation hands back no error, [NodeResource] hands
    back its report and no error; the entries it adds name workloads of the
    report, in their order. *)
Theorem NodeResource_probe_is_soft nodename fix_ (w : World S) :
  nodename ≠ "" →
  (doGetNodeResource Round config nodename fix_ w).1.2 = None →
  ∃ nr failed w',
    (doGetNodeResource Round config nodename fix_ w).1.1 = Some nr
    ∧ NodeResource Round config ErrEmptyNodeName workload_Inspect nodename fix_ w
      = ((Some nr,
          (λ we : Workload.t * error, DiffInspect (Workload.ID we.1) we.2) <$> failed,
          None), w')
    ∧ sublist failed.*1 (NodeResource.Workloads nr).
Proof.
  intros Hname Herr. unfold NodeResource.
  destruct (decide (nodename = "")) as [|_]; [done|].
  unfold bind at 1.
  destruct (doGetNodeResource Round config nodename fix_ w) as [[onr oerr] w1] eqn:Hrun.
  simpl in Herr. subst oerr.
  destruct (doGetNodeResource_report Round config nodename fix_ w w1 onr Hrun) as [nr ->].
  unfold bind at 1.
  destruct (NodeResource_probe_spec (NodeResource.Workloads nr) [] w1)
    as (failed & w2 & -> & Hsub & _).
  exists nr, failed. eexists. split; [done|]. split; [|done]. run. reflexivity.
Qed.

(** X9. When the per-node operation fails, so does [NodeResource], with the
    same error and no report; no workload is probed. *)
Theorem NodeResource_error nodename fix_ (w : World S) err :
  nodename ≠ "" →
  (doGetNodeResource Round config nodename fix_ w).1.2 = Some err →
  ∃ logger,
    NodeResource Round config ErrEmptyNodeName workload_Inspect nodename fix_ w
    = ((None, [], Some err),
       mkWorld (heap (doGetNodeResource Round config nodename fix_ w).2)
         (backend (doGetNodeResource Round config nodename fix_ w).2)
         (trace (doGetNodeResource Round config nodename fix_ w).2
          ++ [ELoggerErr logger (Some err)])).
Proof.
  intros Hname Herr. unfold NodeResource.
  destruct (decide (nodename = "")) as [|_]; [done|].
  unfold bind at 1.
  destruct (doGetNodeResource Round config nodename fix_ w) as [[onr oerr] w1] eqn:Hrun.
  simpl in *. subst oerr. eexists. run. reflexivity.
Qed.
End NodeReportExtras.

Section PodExtras.
Context {S : Type} `{!Backend S}.
Variable Round : float → float.
Variable config : Config.

(** Without [fix] the per-node operation never runs the corrector. *)
Lemma doGetNodeResource_no_fix_readonly nodename (w : World S) :
  ∃ evs,
    trace (doGetNodeResource Round config nodename false w).2 = trace w ++ evs
    ∧ Forall (λ ev, ¬ corrector_event ev) evs.
Proof.
  unfold doGetNodeResource, withNodeLocked. run.
  destruct (LockNode nodename (backend w)) as [[err|sn] s0]; simpl.
  - eexists. split; [reflexivity|]. repeat constructor; by intros [].
  - unfold doGetNodeResource_func. run.
    destruct (ListNodeWorkloads (Node.Name sn) s0) as [[err|ws] s1]; simpl.
    + eexists. rewrite <- !app_assoc. split; [reflexivity|].
      repeat constructor; by intros [].
    + destruct (Engine_ResourceValidate _ _ _ _ _ s1) as [verr s2]; simpl.
      eexists. rewrite <- !app_assoc. split; [reflexivity|].
      repeat constructor; by intros [].
Qed.

Lemma PodResource_loop_readonly logger (nodes : list StoredNode) r (w : World S) :
  ∃ evs,
    trace (PodResource_loop Round config logger nodes r w).2 = trace w ++ evs
    ∧ Forall (λ ev, ¬ corrector_event ev) evs.
Proof.
  revert r w. induction nodes as [|node nodes IH]; intros r w.
  - exists []. simpl. by rewrite app_nil_r.
  - rewrite PodResource_loop_cons.
    destruct (doGetNodeResource_no_fix_readonly (Node.Name node) w) as (evs & Ht & Hro).
    destruct (doGetNodeResource Round config (Node.Name node) false w)
      as [[nr [e|]] w1]; simpl in *.
    + exists (evs ++ [ELoggerErr logger (Some e)]). rewrite Ht, <- app_assoc.
      split; [done|]. apply Forall_app. split; [done|]. repeat constructor. by intros [].
    + destruct (IH (PodResource.mk (PodResource.Name r)
                      (PodResource.NodesResource r ++ [nr])) w1) as (evs' & Ht' & Hro').
      exists (evs ++ evs'). rewrite Ht', Ht, <- app_assoc. split; [done|].
      by apply Forall_app.
Qed.

(** X10. The pod report only reads: whatever the pod and the state of the store,
    [PodResource] calls neither [GetNode] nor [UpdateNodes]. *)
Theorem PodResource_readonly podname (w : World S) :
  ∃ evs,
    trace (PodResource Round config podname w).2 = trace w ++ evs
    ∧ Forall (λ ev, ¬ corrector_event ev) evs.
Proof.
  unfold PodResource. run.
  destruct (ListPodNodes podname (backend w)) as [[e|nodes] s1]; simpl.
  - eexists. rewrite <- app_assoc. split; [reflexivity|].
    repeat constructor; by intros [].
  - destruct (PodResource_loop_readonly
                [("Calcium", "PodResource"); ("podname", podname)] nodes
                (PodResource.mk podname [])
                (mkWorld (heap w) s1 (trace w ++ [EListPodNodes podname])))
      as (evs & Ht & Hro).
    exists (EListPodNodes podname :: evs). rewrite Ht. simpl. rewrite <- app_assoc.
    split; [done|]. constructor; [by intros []|done].
Qed.

(** X11. A pod without nodes yields a report without node reports and no error;
    no node is locked. *)
Theorem PodResource_no_nodes podname (w : World S) s1 :
  ListPodNodes podname (backend w) = (inr [], s1) →
  PodResource Round config podname w
  = ((Some (PodResource.mk podname []), None),
     mkWorld (heap w) s1 (trace w ++ [EListPodNodes podname])).
Proof. intros Hl. unfold PodResource. run. by rewrite Hl. Qed.
End PodExtras.

(** X8, at a concrete input. *)
Lemma NodeResource_probe_is_soft_witness :
  ∃ nr failed w',
    (doGetNodeResource (utils_Round 100) example_config "n1" false
       (Mock.world busy_store)).1.1 = Some nr
    ∧ NodeResource (utils_Round 100) example_config example_ErrEmptyNodeName
        example_Inspect "n1" false (Mock.world busy_store)
      = ((Some nr,
          (λ we : Workload.t * error, DiffInspect (Workload.ID we.1) we.2) <$> failed,
          None), w')
    ∧ sublist failed.*1 (NodeResource.Workloads nr).
Proof.
  apply (NodeResource_probe_is_soft (utils_Round 100) example_config
           example_ErrEmptyNodeName example_Inspect "n1" false (Mock.world busy_store)).
  - discriminate.
  - vm_compute. reflexivity.
Defined.

(** X9, at a concrete input. *)
Lemma NodeResource_error_witness :
  ∃ logger,
    NodeResource (utils_Round 100) example_config example_ErrEmptyNodeName
      example_Inspect "n9" false (Mock.world busy_store)
    = ((None, [], Some (errorString "node not found")),
       mkWorld
         (heap (doGetNodeResource (utils_Round 100) example_config "n9" false
                  (Mock.world busy_store)).2)
         (backend (doGetNodeResource (utils_Round 100) example_config "n9" false
                     (Mock.world busy_store)).2)
         (trace (doGetNodeResource (utils_Round 100) example_config "n9" false
                   (Mock.world busy_store)).2
          ++ [ELoggerErr logger (Some (errorString "node not found"))])).
Proof.
  apply (NodeResource_error (utils_Round 100) example_config example_ErrEmptyNodeName
           example_Inspect "n9" false (Mock.world busy_store)
           (errorString "node not found")).
  - discriminate.
  - vm_compute. reflexivity.
Defined.

(** X11, at a concrete input. *)
Lemma PodResource_no_nodes_witness :
  PodResource (utils_Round 100) example_config "p0" (Mock.world empty_pod_store)
  = ((Some (PodResource.mk "p0" []), None),
     mkWorld ∅ empty_pod_store [EListPodNodes "p0"]).
Proof.
  apply (PodResource_no_nodes (utils_Round 100) example_config "p0"
           (Mock.world empty_pod_store) empty_pod_store).
  reflexivity.
Defined.

(* ===================================================================== *)
(** ** Further properties: capacity map, remap, planner, networks         *)
(* ===================================================================== *)

(** A map filled by assignments [m[k x] = v x] over a list: a key holds the
    value of the last element that has this key. *)
Lemma foldl_insert_lookup {A V : Type} (k : A → string) (v : A → V) (l : list A)
    (m0 : gmap string V) (i : string) :
  foldl (λ m x, <[k x := v x]> m) m0 l !! i
  = match last (filter (λ x, k x = i) l) with
    | Some x => Some (v x)
    | None => m0 !! i
    end.
Proof.
  revert m0. induction l as [|x l IH]; intros m0; [done|].
  cbn [foldl]. rewrite IH, filter_cons.
  destruct (decide (k x = i)) as [Heq|Hne].
  - rewrite last_cons. destruct (last (filter (λ x0, k x0 = i) l)); [done|].
    by rewrite Heq, lookup_insert_eq.
  - destruct (last (filter (λ x0, k x0 = i) l)); [done|]. by rewrite lookup_insert_ne.
Qed.

Lemma foldl_insert_dom {A V : Type} (k : A → string) (v : A → V) (l : list A)
    (m0 : gmap string V) :
  dom (foldl (λ m x, <[k x := v x]> m) m0 l) = dom m0 ∪ list_to_set (k <$> l).
Proof.
  revert m0. induction l as [|x l IH]; intros m0; simpl.
  - set_solver.
  - rewrite IH, dom_insert_L. set_solver.
Qed.

(** X18. [GetCapacity]: the map holds, for a node name, the capacity of the last
    schedule info with that name, and nothing for a name that no schedule
    info has. *)
Theorem GetCapacity_lookup (scheduleInfos : list ScheduleInfo.t) (name : string) :
  GetCapacity scheduleInfos !! name
  = ScheduleInfo.Capacity
      <$> last (filter (λ si, ScheduleInfo.Name si = name) scheduleInfos).
Proof.
  unfold GetCapacity.
  rewrite (foldl_insert_lookup ScheduleInfo.Name ScheduleInfo.Capacity), lookup_empty.
  by destruct (last _).
Qed.

Lemma last_filter_distinct {A : Type} (k : A → string) (l : list A) (x : A) :
  NoDup (k <$> l) → x ∈ l → last (filter (λ y, k y = k x) l) = Some x.
Proof.
  induction l as [|y l IH]; intros Hnd Hin; [by apply elem_of_nil in Hin|].
  rewrite fmap_cons in Hnd. apply NoDup_cons in Hnd as [Hy Hnd].
  rewrite filter_cons.
  apply elem_of_cons in Hin as [->|Hin].
  - rewrite decide_True by done. rewrite last_cons.
    destruct (last (filter (λ y0, k y0 = k y) l)) as [z|] eqn:E; [|done].
    exfalso. apply Hy. apply last_Some_elem_of, list_elem_of_filter in E as [Hz Hzl].
    apply list_elem_of_fmap. by exists z.
  - assert (k y ≠ k x) as Hne.
    { intros Heq. apply Hy. rewrite Heq. apply list_elem_of_fmap. by exists x. }
    rewrite decide_False by done. rewrite <- (IH Hnd Hin).
    by destruct (filter (λ y0, k y0 = k x) l).
Qed.

(** X19. With pairwise distinct names, every schedule info is found under its
    name, and the map has as many entries as there are schedule infos. *)
Theorem GetCapacity_distinct_names (scheduleInfos : list ScheduleInfo.t) :
  NoDup (ScheduleInfo.Name <$> scheduleInfos) →
  (∀ si, si ∈ scheduleInfos →
         GetCapacity scheduleInfos !! ScheduleInfo.Name si = Some (ScheduleInfo.Capacity si))
  ∧ size (GetCapacity scheduleInfos) = length scheduleInfos.
Proof.
  intros Hnd. split.
  - intros si Hin. unfold GetCapacity.
    rewrite (foldl_insert_lookup ScheduleInfo.Name ScheduleInfo.Capacity).
    by rewrite (last_filter_distinct ScheduleInfo.Name scheduleInfos si Hnd Hin).
  - rewrite <- size_dom. unfold GetCapacity.
    rewrite foldl_insert_dom, dom_empty_L, (left_id_L ∅ (∪)).
    rewrite size_list_to_set by done.
    by rewrite length_fmap.
Qed.

Section RemapExtras.
Context {S : Type} `{!Backend S}.
Variable config : Config.


(** X13. When the workloads cannot be listed, the engine is not asked to remap,
    and the store's error is handed back as it is. *)
Theorem remapResource_list_error (node : Node) (w : World S) err s1 :
  store_ListNodeWorkloads (Node.Name node) (backend w) = (inl err, s1) →
  remapResource config node w
  = ((None, Some err),
     mkWorld (heap w) s1 (trace w ++ [EStoreListNodeWorkloads (Node.Name node)])).
Proof. intros Hws. unfold remapResource. run. by rewrite Hws. Qed.

(** X14. The remap request has one entry per workload ID, holding the CPU map,
    quota limit and NUMA node of the last workload listed with that ID, and
    no entry for any other ID. *)
Theorem remapOptions_workload_entry (node : Node) (available : CPUMap)
    (workloads : list Workload.t) (id : string) :
  VirtualizationRemapOptions.WorkloadResources
    (remapOptions config node available workloads) !! id
  = (λ wl, VirtualizationResource.mk (Workload.CPU wl) (Workload.CPUQuotaLimit wl)
             (Workload.NUMANode wl))
      <$> last (filter (λ wl, Workload.ID wl = id) workloads).
Proof.
  unfold remapOptions. simpl.
  rewrite (foldl_insert_lookup Workload.ID
             (λ wl, VirtualizationResource.mk (Workload.CPU wl) (Workload.CPUQuotaLimit wl)
                      (Workload.NUMANode wl))).
  rewrite lookup_empty. by destruct (last _).
Qed.

(** X15. A failed remap is logged once and nothing is drained. *)
Theorem doRemapResourceAndLog_engine_error (logger : Fields) (node : Node) (w : World S)
    (workloads : list Workload.t) s1 err s2 :
  let remapOpts := remapOptions config node (deref (heap w) (Node.CPU node)) workloads in
  let logger' := logger ++ [("Calcium", "doRemapResourceAndLog");
                            ("nodename", Node.Name node)] in
  store_ListNodeWorkloads (Node.Name node) (backend w) = (inr workloads, s1) →
  Engine_VirtualizationResourceRemap (Node.Name node) remapOpts s1 = (inl err, s2) →
  doRemapResourceAndLog config logger node w
  = (tt, mkWorld (heap w) s2
           (trace w
            ++ [ELogf "debug" "[doRemapResourceAndLog] remap node %s";
                EStoreListNodeWorkloads (Node.Name node);
                EResourceRemap (Node.Name node) remapOpts;
                ELoggerErr logger' (Some (withStack err))])).
Proof.
  intros remapOpts logger' Hws Hremap.
  unfold doRemapResourceAndLog, remapResource. run.
  rewrite Hws. simpl. fold remapOpts. rewrite Hremap. simpl.
  by rewrite <- !app_assoc.
Qed.
End RemapExtras.

Section PlannerExtras.
Context {S NodeMap DeployOptions StrategyInfos ResourcePlans : Type}.
Variable doCalculateCapacity :
  NodeMap → DeployOptions → S → (error + (Z * list ResourcePlans * StrategyInfos)) * S.
Variable store_MakeDeployStatus : DeployOptions → StrategyInfos → S → option error * S.
Variable strategy_Deploy :
  DeployOptions → StrategyInfos → Z → S → (error + gmap string Z) * S.

(** X16. When the capacity calculation fails, nothing is staged and the strategy
    is not asked: its error is handed back as it is. *)
Theorem doAllocResource_capacity_error (nodeMap : NodeMap) (opts : DeployOptions)
    (s : S) (tr : list (AllocEvent NodeMap DeployOptions StrategyInfos)) err s1 :
  doCalculateCapacity nodeMap opts s = (inl err, s1) →
  doAllocResource doCalculateCapacity store_MakeDeployStatus strategy_Deploy
    nodeMap opts (s, tr)
  = ((None, None, Some err), (s1, tr ++ [ECalculateCapacity nodeMap opts])).
Proof. intros Hc. unfold doAllocResource, acall, bind, ret. simpl. by rewrite Hc. Qed.

(** X17. After a successful staging the strategy is asked with the total and the
    strategy infos of the capacity calculation.  Its distribution is handed
    back with the plans of the calculation, untouched; its error is handed
    back as it is, with no plans, and the staged status stays. *)
Theorem doAllocResource_placement (nodeMap : NodeMap) (opts : DeployOptions)
    (s : S) (tr : list (AllocEvent NodeMap DeployOptions StrategyInfos))
    total plans infos s1 s2 :
  doCalculateCapacity nodeMap opts s = (inr (total, plans, infos), s1) →
  store_MakeDeployStatus opts infos s1 = (None, s2) →
  let calls := [ECalculateCapacity nodeMap opts; EMakeDeployStatus opts infos;
                EStrategyDeploy opts infos total] in
  doAllocResource doCalculateCapacity store_MakeDeployStatus strategy_Deploy
    nodeMap opts (s, tr)
  = match strategy_Deploy opts infos total s2 with
    | (inr deployMap, s3) =>
        ((Some plans, Some deployMap, None),
         (s3, tr ++ calls
                 ++ [EAllocLogf "info" "[Calium.doAllocResource] deployMap: %+v"]))
    | (inl err, s3) => ((None, None, Some err), (s3, tr ++ calls))
    end.
Proof.
  intros Hc Hs calls. unfold doAllocResource, acall, bind, ret. simpl.
  rewrite Hc. simpl. rewrite Hs. simpl.
  destruct (strategy_Deploy opts infos total s2) as [[err|deployMap] s3]; simpl;
    by rewrite <- !app_assoc.
Qed.
End PlannerExtras.

Section NetworkExtras.
Context {S Network : Type}.
Variable ListPodNodes_ch : string → S → (error + list StoredNode) * S.
Variable PodNoNodes : string → error.
Variable Engine_NetworkList :
  string → list string → S → (list Network * option error) * S.
Variable GetWorkload : string → S → (error + Workload.t) * S.
Variable Engine_NetworkConnect :
  Workload.t → string → string → string → string → S → (list string * option error) * S.
Variable Engine_NetworkDisconnect :
  Workload.t → string → string → bool → S → option error * S.

(** X20. A pod without nodes yields no network and the pod-has-no-nodes error,
    wrapped; no engine is asked. *)
Theorem ListNetworks_no_nodes (podname driver : string) (s : S) (tr : list NetEvent) s1 :
  ListPodNodes_ch podname s = (inr [], s1) →
  let logger := [("Calcium", "ListNetworks"); ("podname", podname); ("driver", driver)] in
  ListNetworks ListPodNodes_ch PodNoNodes Engine_NetworkList podname driver (s, tr)
  = (([], Some (withStack (PodNoNodes podname))),
     (s1, tr ++ [NListPodNodes podname;
                 NLoggerErr logger (Some (withStack (PodNoNodes podname)))])).
Proof.
  intros Hl logger. unfold ListNetworks, nlogger_Err, ncall, bind, ret. simpl.
  rewrite Hl. simpl. by rewrite <- !app_assoc.
Qed.

(** X21. With nodes in the pod, the engine of the first node delivered is the one
    asked, once, with the driver as filter (no filter for a blank driver);
    its networks are handed back together with its error, wrapped. *)
Theorem ListNetworks_first_node (podname driver : string) (s : S) (tr : list NetEvent)
    node nodes s1 :
  ListPodNodes_ch podname s = (inr (node :: nodes), s1) →
  let drivers := if decide (driver = "") then [] else [driver] in
  let logger := [("Calcium", "ListNetworks"); ("podname", podname); ("driver", driver)] in
  ListNetworks ListPodNodes_ch PodNoNodes Engine_NetworkList podname driver (s, tr)
  = let '((networks, err), s2) := Engine_NetworkList (Node.Name node) drivers s1 in
    ((networks, errors_WithStack err),
     (s2, tr ++ [NListPodNodes podname; NNetworkList (Node.Name node) drivers;
                 NLoggerErr logger (errors_WithStack err)])).
Proof.
  intros Hl drivers logger. unfold ListNetworks, nlogger_Err, ncall, bind, ret. simpl.
  rewrite Hl. simpl. fold drivers.
  destruct (Engine_NetworkList (Node.Name node) drivers s1) as [[networks err] s2]; simpl.
  by rewrite <- !app_assoc.
Qed.

(** X22. When the target workload cannot be fetched, neither [ConnectNetwork] nor
    [DisconnectNetwork] asks the engine: each hands back the error, wrapped. *)
Theorem network_change_needs_workload (network target ipv4 ipv6 : string) (force : bool)
    (s : S) (tr : list NetEvent) err s1 :
  GetWorkload target s = (inl err, s1) →
  ∃ lc ld,
    ConnectNetwork GetWorkload Engine_NetworkConnect network target ipv4 ipv6 (s, tr)
    = (([], Some (withStack err)),
       (s1, tr ++ [NGetWorkload target; NLoggerErr lc (Some (withStack err))]))
    ∧ DisconnectNetwork GetWorkload Engine_NetworkDisconnect network target force (s, tr)
      = (Some (withStack err),
         (s1, tr ++ [NGetWorkload target; NLoggerErr ld (Some (withStack err))])).
Proof.
  intros Hg. eexists _, _.
  unfold ConnectNetwork, DisconnectNetwork, nlogger_Err, ncall, bind, ret. simpl.
  rewrite Hg. simpl. by rewrite <- !app_assoc.
Qed.
End NetworkExtras.

(** X19, at a concrete input. *)
Lemma GetCapacity_distinct_names_witness :
  (∀ si, si ∈ example_scheduleInfos →
         GetCapacity example_scheduleInfos !! ScheduleInfo.Name si
         = Some (ScheduleInfo.Capacity si))
  ∧ size (GetCapacity example_scheduleInfos) = 2%nat.
Proof.
  apply (GetCapacity_distinct_names example_scheduleInfos).
  vm_compute. repeat constructor; set_solver.
Defined.

(** X13, at a concrete input. *)
Lemma remapResource_list_error_witness :
  @remapResource Mock.t listing_fails example_config busy_node_in_memory busy_world
  = ((None, Some (errorString "etcd: request timed out")),
     mkWorld (heap busy_world) busy_store
       (trace busy_world ++ [EStoreListNodeWorkloads "n1"])).
Proof.
  apply (@remapResource_list_error Mock.t listing_fails example_config
           busy_node_in_memory busy_world (errorString "etcd: request timed out")
           busy_store).
  reflexivity.
Defined.

(** X15, at a concrete input. *)
Lemma doRemapResourceAndLog_engine_error_witness :
  doRemapResourceAndLog example_config [] busy_node_in_memory remap_refused_world
  = (tt, mkWorld (heap remap_refused_world) remap_refused_store
           (trace remap_refused_world
            ++ [ELogf "debug" "[doRemapResourceAndLog] remap node %s";
                EStoreListNodeWorkloads "n1";
                EResourceRemap "n1"
                  (remapOptions example_config busy_node_in_memory
                     (deref (heap remap_refused_world) (Node.CPU busy_node_in_memory))
                     busy_workloads);
                ELoggerErr [("Calcium", "doRemapResourceAndLog"); ("nodename", "n1")]
                  (Some (withStack (errorString "engine: connection refused")))])).
Proof.
  apply (doRemapResourceAndLog_engine_error example_config [] busy_node_in_memory
           remap_refused_world busy_workloads remap_refused_store
           (errorString "engine: connection refused") remap_refused_store);
    reflexivity.
Defined.

(** X16, at a concrete input. *)
Lemma doAllocResource_capacity_error_witness :
  doAllocResource failing_capacity example_MakeDeployStatus example_Deploy
    "nodes" "request" (tt, [])
  = ((None, None, Some (errorString "not enough resource")),
     (tt, [ECalculateCapacity "nodes" "request"])).
Proof.
  apply (doAllocResource_capacity_error failing_capacity example_MakeDeployStatus
           example_Deploy "nodes" "request" tt [] (errorString "not enough resource") tt).
  reflexivity.
Defined.

(** X17, at a concrete input. *)
Lemma doAllocResource_placement_witness :
  doAllocResource example_capacity example_MakeDeployStatus example_Deploy
    "nodes" "request" (tt, [])
  = ((Some ["plan"], Some {[ "n1" := 3%Z ]}, None),
     (tt, [ECalculateCapacity "nodes" "request"; EMakeDeployStatus "request" "infos";
           EStrategyDeploy "request" "infos" 3%Z;
           EAllocLogf "info" "[Calium.doAllocResource] deployMap: %+v"])).
Proof.
  exact (doAllocResource_placement example_capacity example_MakeDeployStatus
           example_Deploy "nodes" "request" tt [] 3%Z ["plan"] "infos" tt tt
           eq_refl eq_refl).
Defined.

(** X20, at a concrete input. *)
Lemma ListNetworks_no_nodes_witness :
  ListNetworks example_ListPodNodes_ch example_PodNoNodes example_NetworkList
    "p0" "calico" (tt, [])
  = (([], Some (withStack (example_PodNoNodes "p0"))),
     (tt, [NListPodNodes "p0";
           NLoggerErr [("Calcium", "ListNetworks"); ("podname", "p0");
                       ("driver", "calico")]
             (Some (withStack (example_PodNoNodes "p0")))])).
Proof.
  exact (ListNetworks_no_nodes example_ListPodNodes_ch example_PodNoNodes
           example_NetworkList "p0" "calico" tt [] tt eq_refl).
Defined.

(** X21, at a concrete input. *)
Lemma ListNetworks_first_node_witness :
  ListNetworks example_ListPodNodes_ch example_PodNoNodes example_NetworkList
    "p1" "calico" (tt, [])
  = ((["calico"], None),
     (tt, [NListPodNodes "p1"; NNetworkList "n1" ["calico"];
           NLoggerErr [("Calcium", "ListNetworks"); ("podname", "p1");
                       ("driver", "calico")] None])).
Proof.
  exact (ListNetworks_first_node example_ListPodNodes_ch example_PodNoNodes
           example_NetworkList "p1" "calico" tt [] busy_node [short_node] tt eq_refl).
Defined.

(** X22, at a concrete input. *)
Lemma network_change_needs_workload_witness :
  ∃ lc ld,
    ConnectNetwork missing_GetWorkload example_NetworkConnect "net" "w9" "10.0.0.2" ""
      (tt, [])
    = (([], Some (withStack (errorString "workload not found"))),
       (tt, [NGetWorkload "w9";
             NLoggerErr lc (Some (withStack (errorString "workload not found")))]))
    ∧ DisconnectNetwork missing_GetWorkload example_NetworkDisconnect "net" "w9" true
        (tt, [])
      = (Some (withStack (errorString "workload not found")),
         (tt, [NGetWorkload "w9";
               NLoggerErr ld (Some (withStack (errorString "workload not found")))])).
Proof.
  apply (network_change_needs_workload missing_GetWorkload example_NetworkConnect
           example_NetworkDisconnect "net" "w9" "10.0.0.2" "" true tt []
           (errorString "workload not found") tt).
  reflexivity.
Defined.

(* ===================================================================== *)
(** ** Further properties: the unit builder                               *)
(* ===================================================================== *)

Module SystemdExtras.
Import Systemd.

(** X23. The restart policy handed to systemd is "no", "always" or "on-failure";
    a policy is refused exactly when it is none of "no", "always", the blank
    string and a string that starts with "on-failure". *)
Theorem convertToSystemdRestartPolicy_cases (restart : string) :
  match convertToSystemdRestartPolicy restart with
  | (policy, None) =>
      (policy = "no" ∧ restart = "no")
      ∨ (policy = "always" ∧ (restart = "always" ∨ restart = ""))
      ∨ (policy = "on-failure" ∧ String.prefix "on-failure" restart = true)
  | (policy, Some _) =>
      policy = "" ∧ restart ≠ "no" ∧ restart ≠ "always" ∧ restart ≠ ""
      ∧ String.prefix "on-failure" restart = false
  end.
Proof.
  unfold convertToSystemdRestartPolicy.
  destruct (decide (restart = "no")); [by left|].
  destruct (decide (restart = "always" ∨ restart = "")) as [|Hn]; [right; by left|].
  destruct (String.prefix "on-failure" restart) eqn:E; [right; by right|].
  repeat split; try done; intros ->; apply Hn; (by left) || (by right).
Qed.

(** X24. The standard-output type handed to systemd is "journal" or "null"; a log
    type is refused exactly when it is none of "journald", "none" and the
    blank string. *)
Theorem convertToSystemdStdio_cases (logType : string) :
  match convertToSystemdStdio logType with
  | (stdioType, None) =>
      (stdioType = "journal" ∧ (logType = "journald" ∨ logType = ""))
      ∨ (stdioType = "null" ∧ logType = "none")
  | (stdioType, Some _) =>
      stdioType = "" ∧ logType ≠ "journald" ∧ logType ≠ "" ∧ logType ≠ "none"
  end.
Proof.
  unfold convertToSystemdStdio.
  destruct (decide (logType = "journald" ∨ logType = "")) as [|Hn]; [by left|].
  destruct (decide (logType = "none")); [by right|].
  repeat split; try done; intros ->; apply Hn; (by left) || (by right).
Qed.

Section BuilderExtras.
Variable json_Marshal : string → gmap string string → error + string.
Variable Sprintf_d : Z → string.
Variable Sprintf_2f : float → string.

Ltac unfold_steps :=
  unfold buildUnit, buildPreExec, buildMemoryLimit, buildCPULimit, buildExec,
         buildPostExec, append_service, append_unit, set_err, cgroupPath; simpl.

Lemma prefix_app_r' {A} (l k : list A) : l `prefix_of` l ++ k.
Proof. by apply prefix_app_r. Qed.

(** One step keeps the ID and the options, and only appends to the buffers. *)
Lemma run_step_grows (s : step) (b : unitBuilder) :
  ID (run_step json_Marshal Sprintf_d Sprintf_2f s b) = ID b ∧ opts (run_step json_Marshal Sprintf_d Sprintf_2f s b) = opts b
  ∧ unitBuffer b `prefix_of` unitBuffer (run_step json_Marshal Sprintf_d Sprintf_2f s b)
  ∧ serviceBuffer b `prefix_of` serviceBuffer (run_step json_Marshal Sprintf_d Sprintf_2f s b).
Proof.
  destruct s; simpl; unfold_steps;
    repeat (case_match; simpl; try done);
    repeat split; try done;
    rewrite <- ?app_assoc; try apply prefix_app_r'.
Qed.

(** X25. Whatever chain of steps runs, the builder keeps its ID and options, and
    the lines already in the unit and service buffers stay, in place, at the
    head of the buffers. *)
Theorem run_steps_grow (ss : list step) (b : unitBuilder) :
  ID (run_steps json_Marshal Sprintf_d Sprintf_2f ss b) = ID b ∧ opts (run_steps json_Marshal Sprintf_d Sprintf_2f ss b) = opts b
  ∧ unitBuffer b `prefix_of` unitBuffer (run_steps json_Marshal Sprintf_d Sprintf_2f ss b)
  ∧ serviceBuffer b `prefix_of` serviceBuffer (run_steps json_Marshal Sprintf_d Sprintf_2f ss b).
Proof.
  unfold run_steps. revert b. induction ss as [|s ss IH]; intros b; simpl; [done|].
  destruct (IH (run_step json_Marshal Sprintf_d Sprintf_2f s b)) as (H1 & H2 & H3 & H4).
  destruct (run_step_grows s b) as (G1 & G2 & G3 & G4).
  repeat split; [congruence | congruence | by etrans | by etrans].
Qed.

(** X26. The unit section is written by [buildUnit] alone; the other steps leave
    it as it is. *)
Theorem unitBuffer_written_by_buildUnit_only (s : step) (b : unitBuilder) :
  s ≠ StepUnit → unitBuffer (run_step json_Marshal Sprintf_d Sprintf_2f s b) = unitBuffer b.
Proof.
  intros Hs. destruct s; try done; simpl; unfold_steps;
    repeat (case_match; simpl; try done).
Qed.

Lemma step_keeps_err (s : step) (b : unitBuilder) :
  s ≠ StepUnit → s ≠ StepExec → err (run_step json_Marshal Sprintf_d Sprintf_2f s b) = err b.
Proof.
  intros Hu Hx. destruct s; try done; simpl; unfold_steps;
    destruct (err b) eqn:E; try done; repeat (case_match; simpl; try done).
Qed.

(** X27. Only [buildUnit] and [buildExec] can record an error: [buildUnit] when
    the description cannot be marshalled, [buildExec] when the log type or
    the restart policy is not supported.  The steps that write the cgroup
    commands and the limits never fail. *)
Theorem error_recorded_by (s : step) (b : unitBuilder) (e : error) :
  err b = None → err (run_step json_Marshal Sprintf_d Sprintf_2f s b) = Some e →
  (s = StepUnit ∧ json_Marshal (Name (opts b)) (Labels (opts b)) = inl e)
  ∨ (s = StepExec
     ∧ ((convertToSystemdStdio (LogType (opts b))).2 = Some e
        ∨ ((convertToSystemdStdio (LogType (opts b))).2 = None
           ∧ (convertToSystemdRestartPolicy (RestartPolicy (opts b))).2 = Some e))).
Proof.
  intros Hb Hs.
  destruct s; try (rewrite step_keeps_err in Hs by done; congruence).
  - left. split; [done|]. simpl in Hs. unfold buildUnit in Hs. rewrite Hb in Hs.
    destruct (json_Marshal _ _) as [e'|d]; simpl in Hs; congruence.
  - right. split; [done|]. simpl in Hs. unfold buildExec in Hs. rewrite Hb in Hs.
    destruct (convertToSystemdStdio _) as [st [e1|]]; simpl in *; [left; congruence|].
    destruct (convertToSystemdRestartPolicy _) as [rp [e2|]]; simpl in *;
      [right; split; congruence | congruence].
Qed.

(** X28. [buildExec] writes its five lines or none: on an error-free builder it
    either records an error and leaves both buffers as they are, or appends
    five lines to the service section and records nothing. *)
Theorem buildExec_all_or_nothing (b : unitBuilder) :
  err b = None →
  unitBuffer (buildExec b) = unitBuffer b
  ∧ match err (buildExec b) with
    | Some _ => serviceBuffer (buildExec b) = serviceBuffer b
    | None =>
        ∃ lines, serviceBuffer (buildExec b) = serviceBuffer b ++ lines
                 ∧ length lines = 5%nat
    end.
Proof.
  intros Hb. unfold buildExec. rewrite Hb.
  destruct (convertToSystemdStdio _) as [st [e1|]]; simpl; [done|].
  destruct (convertToSystemdRestartPolicy _) as [rp [e2|]]; simpl; [done|].
  rewrite Hb. split; [done|]. by eexists.
Qed.

Lemma buildPreExec_keeps (b : unitBuilder) :
  err (buildPreExec Sprintf_d Sprintf_2f b) = err b
  ∧ opts (buildPreExec Sprintf_d Sprintf_2f b) = opts b.
Proof.
  split.
  - by apply (step_keeps_err StepPreExec).
  - apply (run_step_grows StepPreExec).
Qed.

(** X29. The usual chain, on a new builder: the first failure wins.  [buffer]
    hands back the marshalling error if there is one, else the error for the
    log type if it is not supported, else the error for the restart policy
    if it is not supported, else no error. *)
Theorem chain_first_error_wins (id : string) (o : VirtualizationCreateOptions) :
  (buffer (run_steps json_Marshal Sprintf_d Sprintf_2f [StepUnit; StepPreExec; StepExec; StepPostExec]
             (newUnitBuilder id o))).2
  = match json_Marshal (Name o) (Labels o) with
    | inl e => Some e
    | inr _ =>
        match (convertToSystemdStdio (LogType o)).2 with
        | Some e => Some e
        | None => (convertToSystemdRestartPolicy (RestartPolicy o)).2
        end
    end.
Proof.
  unfold run_steps, buffer. cbn [foldl run_step snd].
  set (b1 := buildUnit json_Marshal (newUnitBuilder id o)).
  assert (opts b1 = o ∧ err b1 = match json_Marshal (Name o) (Labels o) with
                                 | inl e => Some e | inr _ => None end) as [Ho1 He1].
  { subst b1. unfold buildUnit, newUnitBuilder. simpl.
    by destruct (json_Marshal _ _). }
  destruct (buildPreExec_keeps b1) as [He2 Ho2].
  set (b2 := buildPreExec Sprintf_d Sprintf_2f b1) in *.
  rewrite He1 in He2. rewrite Ho1 in Ho2.
  assert (err (buildPostExec (buildExec b2)) = err (buildExec b2)) as ->.
  { unfold buildPostExec. by destruct (err (buildExec b2)) eqn:E. }
  unfold buildExec. rewrite He2, Ho2.
  destruct (json_Marshal _ _) as [e|d]; [done|].
  destruct (convertToSystemdStdio _) as [st [e1|]]; simpl; [done|].
  by destruct (convertToSystemdRestartPolicy _) as [rp [e2|]].
Qed.
End BuilderExtras.
End SystemdExtras.

(** X26, at a concrete input. *)
Lemma unitBuffer_written_by_buildUnit_only_witness :
  Systemd.unitBuffer
    (Systemd.run_step example_json example_d example_2f Systemd.StepExec syslog_builder)
  = Systemd.unitBuffer syslog_builder.
Proof.
  apply (SystemdExtras.unitBuffer_written_by_buildUnit_only example_json example_d
           example_2f Systemd.StepExec syslog_builder).
  discriminate.
Defined.

(** X27, at a concrete input. *)
Lemma error_recorded_by_witness :
  (Systemd.StepExec = Systemd.StepUnit
   ∧ example_json (Systemd.Name (Systemd.opts syslog_builder))
       (Systemd.Labels (Systemd.opts syslog_builder))
     = inl (errorString "log type not supported: syslog"))
  ∨ (Systemd.StepExec = Systemd.StepExec
     ∧ ((Systemd.convertToSystemdStdio (Systemd.LogType (Systemd.opts syslog_builder))).2
        = Some (errorString "log type not supported: syslog")
        ∨ ((Systemd.convertToSystemdStdio
              (Systemd.LogType (Systemd.opts syslog_builder))).2 = None
           ∧ (Systemd.convertToSystemdRestartPolicy
                (Systemd.RestartPolicy (Systemd.opts syslog_builder))).2
             = Some (errorString "log type not supported: syslog")))).
Proof.
  apply (SystemdExtras.error_recorded_by example_json example_d example_2f
           Systemd.StepExec syslog_builder).
  - reflexivity.
  - vm_compute. reflexivity.
Defined.

(** X28, at a concrete input. *)
Lemma buildExec_all_or_nothing_witness :
  Systemd.unitBuffer (Systemd.buildExec new_builder) = Systemd.unitBuffer new_builder
  ∧ match Systemd.err (Systemd.buildExec new_builder) with
    | Some _ =>
        Systemd.serviceBuffer (Systemd.buildExec new_builder)
        = Systemd.serviceBuffer new_builder
    | None =>
        ∃ lines,
          Systemd.serviceBuffer (Systemd.buildExec new_builder)
          = Systemd.serviceBuffer new_builder ++ lines
          ∧ length lines = 5%nat
    end.
Proof.
  apply (SystemdExtras.buildExec_all_or_nothing new_builder).
  reflexivity.
Defined.
